(** * zerops-rag-starter: ingestion pipeline and query cache

    A shallow embedding of [src/api/main.py] (the upload, search and status
    endpoints) and [src/processor/processor.py] (the queue consumer), with
    the five external stores modelled as one explicit world that both
    programs thread through their client calls. *)

From Stdlib Require Import ZArith QArith Strings.Byte Ascii String List.
From stdpp Require Import base option strings list gmap relations sorting.

Open Scope string_scope.
Open Scope Z_scope.
Open Scope list_scope.
Set Warnings "-register-all".

(** ** Exceptions and results *)

(** The exceptions the client libraries raise at the call sites of the two
    programs. *)
Inductive exn :=
| NoSuchKey              (* boto3: get_object on an absent key *)
| S3Unavailable          (* boto3: endpoint could not be reached *)
| PgUnavailable          (* asyncpg: connection or statement failed *)
| UniqueViolation        (* asyncpg: primary key already present *)
| StringTooLong          (* asyncpg: value too long for VARCHAR(255) *)
| NatsUnavailable        (* nats: publish failed *)
| RedisUnavailable       (* redis: ConnectionError / TimeoutError *)
| HttpTransport          (* httpx: connect or read error, timeout *)
| JsonDecodeError        (* response.json() on a body that is not JSON *)
| AttributeError.        (* .get on a JSON value that is not a dict *)

Inductive result (A : Type) :=
| Ok (a : A)
| Raise (e : exn).
Arguments Ok {A} a.
Arguments Raise {A} e.

Definition raised {A} (r : result A) : bool :=
  match r with Ok _ => false | Raise _ => true end.

(** ** Data *)

Definition bytes := list Byte.byte.

(** JSON values as [json.loads] / [response.json()] give them; a dict is
    kept as its list of items. *)
Inductive json :=
| JNull
| JBool (b : bool)
| JNum (q : Q)
| JStr (s : string)
| JArr (items : list json)
| JObj (fields : list (string * json)).

(** [d.get(key, default)] on the items of a dict. *)
Fixpoint dict_get (key : string) (fields : list (string * json)) (default : json) : json :=
  match fields with
  | [] => default
  | (k, v) :: rest => if String.eqb k key then v else dict_get key rest default
  end.

(** The queue message [{"id": ..., "filename": ...}]. *)
Record Event := { ev_id : string; ev_filename : string }.

(** A row of the [documents] table. *)
Record Row := {
  filename : string;
  upload_date : Z;
  processed : bool;
  text_preview : option string
}.

(** A point of the [documents] collection. *)
Record Payload := { text : string; pl_filename : string; doc_id : string }.
Record Point := { pt_id : string; vector : list Q; payload : Payload }.

(** The body of the nearest-neighbour request. *)
Record SearchRequest := { sr_vector : list Q; limit : Z; with_payload : bool }.

(** The dict [{"query": ..., "results": ...}] that [search] returns. *)
Record SearchResult := { query : string; results : json }.

(** The dict [{"id": ..., "status": ...}] that [upload_document] returns. *)
Record UploadResponse := { up_id : string; up_status : string }.

(** The uploaded file: its name and what [file.read()] gives. *)
Record UploadFile := { file_name : string; file_body : bytes }.

(** The two external pure routines of the consumer: the lenient UTF-8
    decoding of the blob and the sentence-embedding model. *)
Class Externals := {
  decode_ignore : bytes -> string;      (* content.decode('utf-8', errors='ignore') *)
  model_encode : string -> list Q       (* model.encode(text).tolist() *)
}.

(** Python's [s[:n]]. *)
Definition slice_to (n : nat) (s : string) : string := String.substring 0 n s.

(** ** Client calls and the world *)

(** One constructor per client call that appears in the source. *)
Inductive effect :=
| Stdout (line : string)
| S3PutObject (key : string) (body : bytes)
| S3GetObject (key : string)
| S3ListBuckets
| PgConnect
| PgClose
| PgInsert (id fname : string)
| PgUpdate (preview id : string)
| PgFetchval
| NatsPublish (subject : string) (ev : Event)
| QdrantPutPoints (p : Point)
| QdrantSearch (req : SearchRequest)
| QdrantHealth
| RedisGet (key : string)
| RedisSetex (key : string) (ttl : Z) (value : SearchResult)
| RedisPing.

(** The stores, the queue and the calls issued so far.  A cache entry
    carries the instant at which it expires.  The cache holds what
    [json.dumps] wrote; since [json.loads (json.dumps r)] is [r] on the
    dicts stored here, the entry is kept as the value itself. *)
Record World := {
  blobs : gmap string bytes;
  docs : gmap string Row;
  points : list Point;
  cache : gmap string (SearchResult * Z);
  queue : list (string * Event);
  trace : list effect
}.

Definition empty_world : World :=
  {| blobs := ∅; docs := ∅; points := []; cache := ∅; queue := []; trace := [] |}.

Definition set_blobs (f : gmap string bytes -> gmap string bytes) (w : World) : World :=
  {| blobs := f (blobs w); docs := docs w; points := points w;
     cache := cache w; queue := queue w; trace := trace w |}.
Definition set_docs (f : gmap string Row -> gmap string Row) (w : World) : World :=
  {| blobs := blobs w; docs := f (docs w); points := points w;
     cache := cache w; queue := queue w; trace := trace w |}.
Definition set_points (f : list Point -> list Point) (w : World) : World :=
  {| blobs := blobs w; docs := docs w; points := f (points w);
     cache := cache w; queue := queue w; trace := trace w |}.
Definition set_cache
    (f : gmap string (SearchResult * Z) -> gmap string (SearchResult * Z)) (w : World) : World :=
  {| blobs := blobs w; docs := docs w; points := points w;
     cache := f (cache w); queue := queue w; trace := trace w |}.
Definition set_queue (f : list (string * Event) -> list (string * Event)) (w : World) : World :=
  {| blobs := blobs w; docs := docs w; points := points w;
     cache := cache w; queue := f (queue w); trace := trace w |}.
Definition set_trace (f : list effect -> list effect) (w : World) : World :=
  {| blobs := blobs w; docs := docs w; points := points w;
     cache := cache w; queue := queue w; trace := f (trace w) |}.

(** ** The state-and-exception monad of a request *)

Definition M (A : Type) : Type := World -> result A * World.

Definition ret {A} (a : A) : M A := fun w => (Ok a, w).
Definition throw {A} (e : exn) : M A := fun w => (Raise e, w).
Definition bind {A B} (m : M A) (k : A -> M B) : M B :=
  fun w => match m w with
           | (Ok a, w') => k a w'
           | (Raise e, w') => (Raise e, w')
           end.

Declare Scope req_scope.
Delimit Scope req_scope with req.
Notation "x <- m ;; k" := (bind m (fun x => k))
  (at level 100, m at next level, k at level 200, right associativity) : req_scope.
Notation "m ;; k" := (bind m (fun _ => k))
  (at level 100, k at level 200, right associativity) : req_scope.
Open Scope req_scope.

(** [try: body finally: fin]. *)
Definition try_finally {A} (body : M A) (fin : M unit) : M A :=
  fun w => match body w with
           | (r, w') =>
               match fin w' with
               | (Ok _, w'') => (r, w'')
               | (Raise e, w'') => (Raise e, w'')
               end
           end.

(** [try: body except: handler] with a bare [except]. *)
Definition try_except {A} (body : M A) (handler : M A) : M A :=
  fun w => match body w with
           | (Ok a, w') => (Ok a, w')
           | (Raise _, w') => handler w'
           end.

Definition call (e : effect) : M unit :=
  fun w => (Ok tt, set_trace (fun t => t ++ [e]) w).

Definition modify (f : World -> World) : M unit := fun w => (Ok tt, f w).
Definition gets {A} (f : World -> A) : M A := fun w => (Ok (f w), w).

(** A call that the environment may make fail. *)
Definition or_fail (fault : option exn) : M unit :=
  match fault with
  | Some e => throw e
  | None => ret tt
  end.

(** ** The stores *)

(** What an httpx request gives: a response with its status code and body,
    whatever the status, or a transport exception. *)
Inductive http_reply (B : Type) :=
| Replied (status : Z) (body : B)
| Transport (e : exn).
Arguments Replied {B} status body.
Arguments Transport {B} e.

Definition is_success (status : Z) : bool := (200 <=? status) && (status <? 300).

(** Blob Store. *)
Definition s3_put_object (fault : option exn) (key : string) (body : bytes) : M unit :=
  call (S3PutObject key body) ;;
  or_fail fault ;;
  modify (set_blobs (fun b => <[key := body]> b)).

Definition s3_get_object (fault : option exn) (key : string) : M bytes :=
  call (S3GetObject key) ;;
  or_fail fault ;;
  found <- gets (fun w => blobs w !! key) ;;
  match found with
  | Some content => ret content
  | None => throw NoSuchKey
  end.

(** Metadata Store: the [documents] table, [id] its primary key,
    [filename VARCHAR(255)], [processed BOOLEAN DEFAULT FALSE]. *)
Definition new_row (now : Z) (fname : string) : Row :=
  {| filename := fname; upload_date := now; processed := false; text_preview := None |}.

Definition mark_processed (preview : string) (r : Row) : Row :=
  {| filename := filename r; upload_date := upload_date r;
     processed := true; text_preview := Some preview |}.

Definition pg_connect (fault : option exn) : M unit :=
  call PgConnect ;; or_fail fault.

Definition pg_close : M unit := call PgClose.

(** Assignment to a [VARCHAR(n)] column: a string is accepted when the
    characters beyond the [n]-th, if any, are all spaces, and is stored cut
    to its first [n] characters; otherwise the statement fails. *)
Fixpoint all_spaces (s : string) : bool :=
  match s with
  | EmptyString => true
  | String c rest => Ascii.eqb c " "%char && all_spaces rest
  end.

Fixpoint beyond (n : nat) (s : string) : string :=
  match n, s with
  | S n', String _ rest => beyond n' rest
  | _, _ => s
  end.

Definition varchar_fits (n : nat) (s : string) : bool := all_spaces (beyond n s).

(** [INSERT INTO documents (id, filename) VALUES ($1, $2)]. *)
Definition pg_insert (fault : option exn) (now : Z) (id fname : string) : M unit :=
  call (PgInsert id fname) ;;
  or_fail fault ;;
  existing <- gets (fun w => docs w !! id) ;;
  if varchar_fits 255 fname
  then match existing with
       | Some _ => throw UniqueViolation
       | None => modify (set_docs (fun d => <[id := new_row now (slice_to 255 fname)]> d))
       end
  else throw StringTooLong.

(** [UPDATE documents SET processed = true, text_preview = $1 WHERE id = $2]. *)
Definition pg_update (fault : option exn) (preview id : string) : M unit :=
  call (PgUpdate preview id) ;;
  or_fail fault ;;
  modify (set_docs (fun d => alter (mark_processed preview) id d)).

Definition pg_fetchval (fault : option exn) : M unit :=
  call PgFetchval ;; or_fail fault.

(** Queue. *)
Definition nats_publish (fault : option exn) (subject : string) (ev : Event) : M unit :=
  call (NatsPublish subject ev) ;;
  or_fail fault ;;
  modify (set_queue (fun q => q ++ [(subject, ev)])).

(** Vector Index: an upsert replaces the point that has the same id. *)
Definition upsert (p : Point) (idx : list Point) : list Point :=
  filter (fun q => pt_id q ≠ pt_id p) idx ++ [p].

Definition entries (id : string) (idx : list Point) : list Point :=
  filter (fun q => pt_id q = id) idx.

(** [PUT /collections/documents/points]: the point is stored when the
    index answers with a 2xx status; the caller gets the status back. *)
Definition qdrant_put_points (reply : http_reply unit) (p : Point) : M Z :=
  call (QdrantPutPoints p) ;;
  match reply with
  | Replied status _ =>
      (if is_success status then modify (set_points (upsert p)) else ret tt) ;;
      ret status
  | Transport e => throw e
  end.

(** [POST /collections/documents/points/search]: the response, with its
    body parsed when it is JSON. *)
Definition qdrant_search
    (reply : SearchRequest -> list Point -> http_reply (option json))
    (req : SearchRequest) : M (Z * option json) :=
  call (QdrantSearch req) ;;
  idx <- gets points ;;
  match reply req idx with
  | Replied status body => ret (status, body)
  | Transport e => throw e
  end.

(** The same request from the point where the caller is resumed: what
    [await client.post(...)] gives once the index has answered. *)
Definition qdrant_response
    (reply : SearchRequest -> list Point -> http_reply (option json))
    (req : SearchRequest) : M (Z * option json) :=
  idx <- gets points ;;
  match reply req idx with
  | Replied status body => ret (status, body)
  | Transport e => throw e
  end.

Definition qdrant_health (fault : option exn) : M unit :=
  call QdrantHealth ;; or_fail fault.

(** [response.json()]. *)
Definition response_json (response : Z * option json) : M json :=
  match snd response with
  | Some j => ret j
  | None => throw JsonDecodeError
  end.

(** [body.get("result", [])]. *)
Definition get_result (body : json) : M json :=
  match body with
  | JObj fields => ret (dict_get "result" fields (JArr []))
  | _ => throw AttributeError
  end.

(** Result Cache: an entry is visible strictly before its expiry. *)
Definition live (now : Z) (entry : option (SearchResult * Z)) : option SearchResult :=
  match entry with
  | Some (v, expiry) => if now <? expiry then Some v else None
  | None => None
  end.

Definition redis_get (fault : option exn) (now : Z) (key : string) : M (option SearchResult) :=
  call (RedisGet key) ;;
  or_fail fault ;;
  gets (fun w => live now (cache w !! key)).

Definition redis_setex (fault : option exn) (now : Z) (key : string) (ttl : Z)
    (value : SearchResult) : M unit :=
  call (RedisSetex key ttl value) ;;
  or_fail fault ;;
  modify (set_cache (fun c => <[key := (value, now + ttl)]> c)).

Definition redis_ping (fault : option exn) : M unit :=
  call RedisPing ;; or_fail fault.

Definition s3_list_buckets (fault : option exn) : M unit :=
  call S3ListBuckets ;; or_fail fault.

Definition print (line : string) : M unit := call (Stdout line).

(** The columns [id, filename, upload_date, processed] of a fetched row,
    as [dict(row)] gives them. *)
Record DocumentView := {
  dv_id : string;
  dv_filename : string;
  dv_upload_date : Z;
  dv_processed : bool
}.

Definition view_of (entry : string * Row) : DocumentView :=
  {| dv_id := fst entry; dv_filename := filename (snd entry);
     dv_upload_date := upload_date (snd entry); dv_processed := processed (snd entry) |}.

(** [ORDER BY upload_date DESC]: [a] comes before [b] when it is not
    older. *)
Definition not_older (a b : string * Row) : Prop :=
  upload_date (snd b) <= upload_date (snd a).

#[global] Instance not_older_dec : RelDecision not_older :=
  fun a b => decide (upload_date (snd b) <= upload_date (snd a)).

(** [SELECT ... FROM documents ORDER BY upload_date DESC LIMIT n].  Rows
    of equal [upload_date] come in an order the store chooses; here that
    of the listing of the table. *)
Definition pg_recent (n : nat) (d : gmap string Row) : list (string * Row) :=
  take n (merge_sort not_older (map_to_list d)).

Definition pg_fetch_recent (fault : option exn) (n : nat) : M (list (string * Row)) :=
  or_fail fault ;;
  gets (fun w => pg_recent n (docs w)).

(** ** src/api/main.py *)

Module Api.

(** What the environment decides during one [upload_document] call: the
    clock, the uuid drawn, and which client call fails. *)
Record UploadEnv := {
  up_now : Z;
  up_uuid : string;
  up_s3 : option exn;
  up_pg : option exn;
  up_nats : option exn
}.

Record SearchEnv := {
  se_now : Z;
  se_get : option exn;
  se_qdrant : SearchRequest -> list Point -> http_reply (option json);
  se_setex : option exn
}.

(** [nc] is [None] until startup has connected; otherwise it carries
    [is_connected]. *)
Record StatusEnv := {
  st_nc : option bool;
  st_pg : option exn;
  st_qdrant : option exn;
  st_s3 : option exn;
  st_redis : option exn
}.

Record StatusReport := { status_field : string; services : gmap string string }.

(** [f"documents/{doc_id}.pdf"] *)
Definition object_key (doc_id : string) : string :=
  "documents/" +:+ doc_id +:+ ".pdf".

Definition upload_document (env : UploadEnv) (file : UploadFile) : M UploadResponse :=
  let doc_id := up_uuid env in
  s3_put_object (up_s3 env) (object_key doc_id) (file_body file) ;;
  pg_insert (up_pg env) (up_now env) doc_id (file_name file) ;;
  nats_publish (up_nats env) "document.process"
    {| ev_id := doc_id; ev_filename := file_name file |} ;;
  ret {| up_id := doc_id; up_status := "queued" |}.

(** [{"vector": [0.1] * 384, "limit": 3, "with_payload": True}] *)
Definition search_request : SearchRequest :=
  {| sr_vector := repeat (1 # 10)%Q 384; limit := 3; with_payload := true |}.

(** [f"search:{query}"] *)
Definition cache_key (q : string) : string := "search:" +:+ q.

Definition search (env : SearchEnv) (q : string) : M SearchResult :=
  cached <- redis_get (se_get env) (se_now env) (cache_key q) ;;
  match cached with
  | Some hit => ret hit
  | None =>
      response <- qdrant_search (se_qdrant env) search_request ;;
      body <- response_json response ;;
      hits <- get_result body ;;
      let result := {| query := q; results := hits |} in
      redis_setex (se_setex env) (se_now env) (cache_key q) 300 result ;;
      ret result
  end.

(** [nc and nc.is_connected] *)
Definition nc_connected (nc : option bool) : bool :=
  match nc with
  | Some connected => connected
  | None => false
  end.

(** [try: probe; services[name] = 'healthy' except: services[name] = 'unhealthy'] *)
Definition probe (name : string) (check : M unit) (services : gmap string string)
    : M (gmap string string) :=
  try_except
    (check ;; ret (<[name := "healthy"]> services))
    (ret (<[name := "unhealthy"]> services)).

Definition status (env : StatusEnv) : M StatusReport :=
  let services : gmap string string := ∅ in
  let services :=
    <["nats" := if nc_connected (st_nc env) then "connected" else "disconnected"]> services in
  services <- probe "postgresql" (pg_fetchval (st_pg env)) services ;;
  services <- probe "qdrant" (qdrant_health (st_qdrant env)) services ;;
  services <- probe "storage" (s3_list_buckets (st_s3 env)) services ;;
  services <- probe "cache" (redis_ping (st_redis env)) services ;;
  ret {| status_field := "operational"; services := services |}.

(** [search] gives up control once, at [await client.post(...)], and other
    requests run meanwhile.  Its two halves: up to that await, with [None]
    when the request to the index is on its way, and from the await on. *)
Definition search_until_await (env : SearchEnv) (q : string) : M (option SearchResult) :=
  cached <- redis_get (se_get env) (se_now env) (cache_key q) ;;
  match cached with
  | Some hit => ret (Some hit)
  | None => call (QdrantSearch search_request) ;; ret None
  end.

Definition search_after_await (env : SearchEnv) (q : string) : M SearchResult :=
  response <- qdrant_response (se_qdrant env) search_request ;;
  body <- response_json response ;;
  hits <- get_result body ;;
  let result := {| query := q; results := hits |} in
  redis_setex (se_setex env) (se_now env) (cache_key q) 300 result ;;
  ret result.

(** [GET /documents]. *)
Definition list_documents (fault : option exn) : M (list DocumentView) :=
  rows <- pg_fetch_recent fault 10 ;;
  ret (map view_of rows).

End Api.

(** ** src/processor/processor.py *)

Module Processor.

(** Which client call of one [process_document] run fails, and what the
    Vector Index answers to the upsert. *)
Record ProcessEnv := {
  pr_connect : option exn;
  pr_s3 : option exn;
  pr_qdrant : http_reply unit;
  pr_update : option exn
}.

(** [f"documents/{doc_id}.pdf"] *)
Definition object_key (doc_id : string) : string :=
  "documents/" +:+ doc_id +:+ ".pdf".

Definition make_point (doc_id : string) (embedding : list Q) (text fname : string) : Point :=
  {| pt_id := doc_id; vector := embedding;
     payload := {| text := text; pl_filename := fname; doc_id := doc_id |} |}.

Definition process_document `{Externals} (env : ProcessEnv) (msg : Event) : M unit :=
  let doc_id := ev_id msg in
  print ("Processing document " +:+ doc_id) ;;
  pg_connect (pr_connect env) ;;
  try_finally
    (content <- s3_get_object (pr_s3 env) (object_key doc_id) ;;
     let text := slice_to 500 (decode_ignore content) in
     let embedding := model_encode text in
     _ <- qdrant_put_points (pr_qdrant env)
            (make_point doc_id embedding text (ev_filename msg)) ;;
     pg_update (pr_update env) (slice_to 200 text) doc_id ;;
     print ("Processed document " +:+ doc_id))
    pg_close.

End Processor.

(** ** Observations on a run *)

(** The client calls a request issues when started in [w]. *)
Definition issued {A} (m : M A) (w : World) : list effect :=
  drop (length (trace w)) (trace (snd (m w))).

Definition is_publish (e : effect) : bool :=
  match e with NatsPublish _ _ => true | _ => false end.

Definition is_vector_index_call (e : effect) : bool :=
  match e with
  | QdrantPutPoints _ | QdrantSearch _ | QdrantHealth => true
  | _ => false
  end.

(** A fault-free upload and a fault-free delivery. *)
Definition fine_upload (now : Z) (uuid : string) : Api.UploadEnv :=
  {| Api.up_now := now; Api.up_uuid := uuid;
     Api.up_s3 := None; Api.up_pg := None; Api.up_nats := None |}.

Definition fine_delivery : Processor.ProcessEnv :=
  {| Processor.pr_connect := None; Processor.pr_s3 := None;
     Processor.pr_qdrant := Replied 200 tt; Processor.pr_update := None |}.

(** The [processing_state] of the specification, read off the row. *)
Inductive processing_state := Pending | Processed.

Definition state_of_row (r : Row) : processing_state :=
  if processed r then Processed else Pending.

Definition processing_state_of (w : World) (id : string) : option processing_state :=
  state_of_row <$> docs w !! id.

(** The requests the system serves, and the world after one of them. *)
Inductive action :=
| Upload (env : Api.UploadEnv) (file : UploadFile)
| Search (env : Api.SearchEnv) (q : string)
| Status (env : Api.StatusEnv)
| Deliver (env : Processor.ProcessEnv) (msg : Event).

Definition exec `{Externals} (a : action) (w : World) : World :=
  match a with
  | Upload env file => snd (Api.upload_document env file w)
  | Search env q => snd (Api.search env q w)
  | Status env => snd (Api.status env w)
  | Deliver env msg => snd (Processor.process_document env msg w)
  end.

Definition exec_all `{Externals} (l : list action) (w : World) : World :=
  fold_left (fun w a => exec a w) l w.

(** A concrete instance of the external routines, for examples: bytes read
    as Latin-1 and a one-dimensional embedding. *)
Definition sample_externals : Externals :=
  {| decode_ignore := string_of_list_byte;
     model_encode := fun s => [(Z.of_nat (String.length s) # 1)%Q] |}.

Definition sample_file : UploadFile :=
  {| file_name := "a.pdf"; file_body := list_byte_of_string "0123456789" |}.

Definition sample_event : Event := {| ev_id := "d1"; ev_filename := "a.pdf" |}.

(** The world after [sample_file] has been uploaded under the id [d1]. *)
Definition uploaded_world : World :=
  snd (Api.upload_document (fine_upload 10 "d1") sample_file empty_world).

(** The ways the metadata insert can fail: the statement or the pool
    fails, the filename has something other than spaces beyond its 255th
    character, or the id is already taken. *)
Definition insert_fails (env : Api.UploadEnv) (file : UploadFile) (w : World) : Prop :=
  Api.up_pg env <> None
  \/ varchar_fits 255 (file_name file) = false
  \/ docs w !! Api.up_uuid env <> None.

(** The point and the preview a delivery of [msg] derives from the blob. *)
Definition point_of `{Externals} (msg : Event) (content : bytes) : Point :=
  let text := slice_to 500 (decode_ignore content) in
  Processor.make_point (ev_id msg) (model_encode text) text (ev_filename msg).

Definition preview_of `{Externals} (content : bytes) : string :=
  slice_to 200 (slice_to 500 (decode_ignore content)).

(** A delivery whose upsert the Vector Index answers with an error
    status, as it does while the collection does not exist. *)
Definition rejected_delivery : Processor.ProcessEnv :=
  {| Processor.pr_connect := None; Processor.pr_s3 := None;
     Processor.pr_qdrant := Replied 404 tt; Processor.pr_update := None |}.

(** A delivery whose upsert cannot reach the Vector Index. *)
Definition unreachable_index_delivery : Processor.ProcessEnv :=
  {| Processor.pr_connect := None; Processor.pr_s3 := None;
     Processor.pr_qdrant := Transport HttpTransport; Processor.pr_update := None |}.

(** The world after [rejected_delivery] has handled the event of the
    uploaded document, and after [unreachable_index_delivery] has. *)
Definition world_after_rejected_upsert : World :=
  @exec sample_externals (Deliver rejected_delivery sample_event) uploaded_world.

Definition world_after_unreachable_index : World :=
  @exec sample_externals (Deliver unreachable_index_delivery sample_event) uploaded_world.

(** The first step of a delivery that fails, if any: connecting, the blob
    fetch (a store fault or an absent key), the upsert request (transport
    faults only), the update. *)
Definition first_failure (env : Processor.ProcessEnv) (msg : Event) (w : World) : option exn :=
  match Processor.pr_connect env with
  | Some e => Some e
  | None =>
      match Processor.pr_s3 env with
      | Some e => Some e
      | None =>
          match blobs w !! Processor.object_key (ev_id msg) with
          | None => Some NoSuchKey
          | Some _ =>
              match Processor.pr_qdrant env with
              | Transport e => Some e
              | Replied _ _ => Processor.pr_update env
              end
          end
      end
  end.

Definition stdout_lines (calls : list effect) : list string :=
  omap (fun e => match e with Stdout line => Some line | _ => None end) calls.

(** Environments of a search: everything answers, with [body] as the
    response of the Vector Index; the cache is unreachable; only the cache
    write fails; the Vector Index is unreachable. *)
Definition index_answers (now : Z) (status : Z) (body : json) : Api.SearchEnv :=
  {| Api.se_now := now; Api.se_get := None;
     Api.se_qdrant := fun _ _ => Replied status (Some body); Api.se_setex := None |}.

Definition cache_down (now : Z) (body : json) : Api.SearchEnv :=
  {| Api.se_now := now; Api.se_get := Some RedisUnavailable;
     Api.se_qdrant := fun _ _ => Replied 200 (Some body);
     Api.se_setex := Some RedisUnavailable |}.

Definition cache_write_down (now : Z) (body : json) : Api.SearchEnv :=
  {| Api.se_now := now; Api.se_get := None;
     Api.se_qdrant := fun _ _ => Replied 200 (Some body);
     Api.se_setex := Some RedisUnavailable |}.

Definition index_down (now : Z) : Api.SearchEnv :=
  {| Api.se_now := now; Api.se_get := None;
     Api.se_qdrant := fun _ _ => Transport HttpTransport; Api.se_setex := None |}.

(** A response of the Vector Index with one hit, and an error response. *)
Definition sample_hits : json :=
  JArr [JObj [("id", JStr "d1"); ("score", JNum (9 # 10));
              ("payload", JObj [("text", JStr "0123456789");
                                ("filename", JStr "a.pdf");
                                ("doc_id", JStr "d1")])]].

Definition sample_body : json :=
  JObj [("result", sample_hits); ("status", JStr "ok"); ("time", JNum (1 # 1000))].

Definition error_body : json :=
  JObj [("status", JObj [("error", JStr "Not found: Collection `documents` doesn't exist!")]);
        ("time", JNum 0)].

Definition has_key (key : string) (fields : list (string * json)) : bool :=
  existsb (fun kv => String.eqb (fst kv) key) fields.

(** What [status] should report for a probe with the given outcome. *)
Definition health (fault : option exn) : string :=
  match fault with
  | None => "healthy"
  | Some _ => "unhealthy"
  end.

(** What [status] should report for the queue client: connected only
    when there is a client and it says it is connected. *)
Definition connection (nc : option bool) : string :=
  match nc with
  | Some true => "connected"
  | Some false => "disconnected"
  | None => "disconnected"
  end.

(** The worlds the system can be in: those a sequence of requests leads
    to from the empty stores. *)
Definition reachable `{Externals} (w : World) : Prop :=
  exists l, w = exec_all l empty_world.

(** Every row and every queued event has its blob. *)
Definition blobs_cover (w : World) : Prop :=
  (forall id, is_Some (docs w !! id) -> is_Some (blobs w !! Api.object_key id))
  /\ (forall subject ev, (subject, ev) ∈ queue w ->
        is_Some (blobs w !! Processor.object_key (ev_id ev))).

(** The requests whose clock, when they read it for the cache, is still
    before [expiry]. *)
Definition clock_before (expiry : Z) (a : action) : Prop :=
  match a with
  | Search env _ => Api.se_now env < expiry
  | _ => True
  end.

(** The entry of [GET /documents] for a document just uploaded. *)
Definition fresh_view (env : Api.UploadEnv) (file : UploadFile) : DocumentView :=
  {| dv_id := Api.up_uuid env; dv_filename := slice_to 255 (file_name file);
     dv_upload_date := Api.up_now env; dv_processed := false |}.

(** An upload on which only the publish fails. *)
Definition publish_down (now : Z) (uuid : string) : Api.UploadEnv :=
  {| Api.up_now := now; Api.up_uuid := uuid;
     Api.up_s3 := None; Api.up_pg := None; Api.up_nats := Some NatsUnavailable |}.

(** What makes [search] fail once the Vector Index has been asked: the
    request itself, a body that is not JSON, a JSON body that is not a
    dict. *)
Definition reply_failure (reply : http_reply (option json)) : option exn :=
  match reply with
  | Transport e => Some e
  | Replied _ None => Some JsonDecodeError
  | Replied _ (Some (JObj _)) => None
  | Replied _ (Some _) => Some AttributeError
  end.

(** A Vector Index that answers with a body that is not JSON. *)
Definition index_answers_garbage (now : Z) : Api.SearchEnv :=
  {| Api.se_now := now; Api.se_get := None;
     Api.se_qdrant := fun _ _ => Replied 502 None; Api.se_setex := None |}.

(** The point a delivery stores in the Vector Index, if it gets that
    far and the index accepts it, and the preview it writes to the row, if
    it gets that far; both depend on the world through the blob only. *)
Definition delivered_point `{Externals} (env : Processor.ProcessEnv) (msg : Event)
    (b : gmap string bytes) : option Point :=
  match Processor.pr_connect env, Processor.pr_s3 env,
        b !! Processor.object_key (ev_id msg), Processor.pr_qdrant env with
  | None, None, Some content, Replied status _ =>
      if is_success status then Some (point_of msg content) else None
  | _, _, _, _ => None
  end.

Definition delivered_preview `{Externals} (env : Processor.ProcessEnv) (msg : Event)
    (b : gmap string bytes) : option string :=
  match Processor.pr_connect env, Processor.pr_s3 env,
        b !! Processor.object_key (ev_id msg), Processor.pr_qdrant env,
        Processor.pr_update env with
  | None, None, Some content, Replied _ _, None => Some (preview_of content)
  | _, _, _, _, _ => None
  end.

(** A delivery on which only the update of the row fails. *)
Definition update_down : Processor.ProcessEnv :=
  {| Processor.pr_connect := None; Processor.pr_s3 := None;
     Processor.pr_qdrant := Replied 200 tt; Processor.pr_update := Some PgUnavailable |}.

(** What a delivery may send: an upsert of the point derived from the
    blob, with text of at most 500 characters embedded by the model, and an
    update with the first 200 characters of that text. *)
Definition well_formed_call `{Externals} (msg : Event) (w : World) (c : effect) : Prop :=
  match c with
  | QdrantPutPoints p =>
      exists content,
        blobs w !! Processor.object_key (ev_id msg) = Some content
        /\ pt_id p = ev_id msg
        /\ doc_id (payload p) = ev_id msg
        /\ pl_filename (payload p) = ev_filename msg
        /\ text (payload p) = slice_to 500 (decode_ignore content)
        /\ (String.length (text (payload p)) <= 500)%nat
        /\ vector p = model_encode (text (payload p))
  | PgUpdate preview id =>
      exists content,
        blobs w !! Processor.object_key (ev_id msg) = Some content
        /\ id = ev_id msg
        /\ preview = slice_to 200 (decode_ignore content)
        /\ (String.length preview <= 200)%nat
  | _ => True
  end.

(** A second document, uploaded after the first. *)
Definition second_event : Event := {| ev_id := "d2"; ev_filename := "b.pdf" |}.

Definition two_uploads_world : World :=
  snd (Api.upload_document (fine_upload 20 "d2")
         {| file_name := "b.pdf"; file_body := list_byte_of_string "second document" |}
         uploaded_world).

(** Invariants of the stores.  A row is processed exactly when it has a
    preview, and a preview has at most 200 characters. *)
Definition rows_consistent (w : World) : Prop :=
  forall id r, docs w !! id = Some r ->
    (processed r = true <-> is_Some (text_preview r))
    /\ (forall preview, text_preview r = Some preview ->
          (String.length preview <= 200)%nat).

(** The queue carries one event per document, on the subject the consumer
    subscribes to, and each event has a row whose filename is that of the
    event as the column stores it. *)
Definition queue_consistent (w : World) : Prop :=
  NoDup ((fun e => ev_id (snd e)) <$> queue w)
  /\ (forall subject ev, (subject, ev) ∈ queue w ->
        subject = "document.process"
        /\ varchar_fits 255 (ev_filename ev) = true
        /\ exists r, docs w !! ev_id ev = Some r
                     /\ filename r = slice_to 255 (ev_filename ev)).

(** Whether a text holds the character NUL, which the Metadata Store
    refuses in a text value. *)
Fixpoint has_nul (s : string) : bool :=
  match s with
  | EmptyString => false
  | String c rest => Ascii.eqb c Ascii.zero || has_nul rest
  end.

(** A filename of 256 characters whose last 251 are spaces, and what the
    column stores of it. *)
Definition padded_name : string :=
  "a.pdf" +:+ string_of_list_ascii (repeat " "%char 251).

Definition padded_name_stored : string :=
  "a.pdf" +:+ string_of_list_ascii (repeat " "%char 250).

Definition padded_file : UploadFile :=
  {| file_name := padded_name; file_body := list_byte_of_string "0123456789" |}.


(** The index holds at most one point per id; each point names its own id
    in its payload, carries at most 500 characters of text and the
    embedding of that text, and belongs to a stored blob. *)
Definition index_consistent `{Externals} (w : World) : Prop :=
  NoDup (pt_id <$> points w)
  /\ (forall p, p ∈ points w ->
        doc_id (payload p) = pt_id p
        /\ (String.length (text (payload p)) <= 500)%nat
        /\ vector p = model_encode (text (payload p))
        /\ is_Some (blobs w !! Processor.object_key (pt_id p))).

(** What can happen between two requests: a request served in one go, a
    search running up to its await, a search in flight running from its
    await on. *)
Inductive move :=
| Serve (a : action)
| SearchAsks (env : Api.SearchEnv) (q : string)
| SearchResumes (env : Api.SearchEnv) (q : string).

Definition play `{Externals} (m : move) (w : World) : World :=
  match m with
  | Serve a => exec a w
  | SearchAsks env q => snd (Api.search_until_await env q w)
  | SearchResumes env q => snd (Api.search_after_await env q w)
  end.

Definition play_all `{Externals} (l : list move) (w : World) : World :=
  fold_left (fun w m => play m w) l w.

(** The moves that cannot replace the cache entry of [q] before [expiry]:
    all but a search for [q] in flight that resumes, and a search served
    when the entry has expired. *)
Definition keeps_entry (q : string) (expiry : Z) (m : move) : Prop :=
  match m with
  | Serve a => clock_before expiry a
  | SearchAsks _ _ => True
  | SearchResumes _ q' => q' <> q
  end.

(** A search has returned [r] and left the world [w1]: served in one go,
    or resumed after its await. *)
Definition completes (env : Api.SearchEnv) (q : string) (w : World)
    (r : SearchResult) (w1 : World) : Prop :=
  Api.search env q w = (Ok r, w1) \/ Api.search_after_await env q w = (Ok r, w1).

(** The response of the Vector Index once a second document is indexed. *)
Definition grown_hits : json :=
  JArr [JObj [("id", JStr "d2"); ("score", JNum (95 # 100));
              ("payload", JObj [("text", JStr "second document");
                                ("filename", JStr "b.pdf");
                                ("doc_id", JStr "d2")])];
        JObj [("id", JStr "d1"); ("score", JNum (9 # 10));
              ("payload", JObj [("text", JStr "0123456789");
                                ("filename", JStr "a.pdf");
                                ("doc_id", JStr "d1")])]].

Definition grown_body : json :=
  JObj [("result", grown_hits); ("status", JStr "ok"); ("time", JNum (1 # 1000))].

(** Two searches for the same query in flight at once: both miss the
    cache, at 0 and at 1; the first is resumed at 2 with [first] as the
    answer of the index, the second at 4 with [second]. *)
Definition both_asked : World :=
  snd (Api.search_until_await (index_answers 1 200 sample_body) "emissions"
         (snd (Api.search_until_await (index_answers 0 200 sample_body) "emissions"
                 empty_world))).

Definition first_resumed (first : Z * json) : World :=
  snd (Api.search_after_await (index_answers 2 (fst first) (snd first)) "emissions"
         both_asked).

Definition second_resumed (first second : Z * json) : World :=
  snd (Api.search_after_await (index_answers 4 (fst second) (snd second)) "emissions"
         (snd (Api.search (index_down 3) "emissions" (first_resumed first)))).

(** * Theorems *)

Create HintDb req_ops.
#[local] Hint Unfold bind ret throw try_finally try_except call modify gets or_fail
  s3_put_object s3_get_object pg_connect pg_close pg_insert pg_update pg_fetchval
  nats_publish qdrant_put_points qdrant_search qdrant_health response_json get_result
  redis_get redis_setex redis_ping s3_list_buckets print issued : req_ops.

Lemma drop_trace_app (t l : list effect) : drop (length t) (t ++ l) = l.
Proof. apply drop_app_length. Qed.

Lemma drop_trace_app_more (t l1 l : list effect) :
  drop (length (t ++ l1)) (t ++ l) = drop (length l1) l.
Proof. induction t as [|e t IH]; [reflexivity | exact IH]. Qed.

Ltac trace_tail :=
  repeat rewrite <- app_assoc; cbn [app];
  first [ rewrite drop_trace_app
        | rewrite drop_trace_app_more; cbn [length drop]
        | idtac ].

(** ** Blob keys *)

Lemma object_key_agree (id : string) : Processor.object_key id = Api.object_key id.
Proof. reflexivity. Qed.

Ltac simp :=
  cbn -[Nat.ltb Z.ltb Z.leb lookup insert alter filter repeat varchar_fits slice_to] in *.

Ltac split_match :=
  match goal with
  | |- context [match ?x with _ => _ end] =>
      lazymatch x with
      | context [match _ with _ => _ end] => fail
      | _ => destruct x eqn:?
      end
  end.

Ltac crunch := autounfold with req_ops; simp; repeat (split_match; simp).

(** C10: the Producer writes the blob under [documents/{id}.pdf], a key
    that depends on the id alone, and the Consumer reads under the same
    key: after an upload that completed, the first store call of a delivery
    for that id is a [get_object] on the key the Producer wrote, and the
    Blob Store holds the uploaded bytes there. *)
Theorem C10_consumer_fetches_producer_key
    `{Externals} (env : Api.UploadEnv) (file : UploadFile) (w : World) (resp : UploadResponse) :
  fst (Api.upload_document env file w) = Ok resp ->
  let w' := snd (Api.upload_document env file w) in
  let key := Processor.object_key (up_id resp) in
  key = "documents/" +:+ Api.up_uuid env +:+ ".pdf"
  /\ key = Api.object_key (Api.up_uuid env)
  /\ issued (Api.upload_document env file) w !! 0%nat = Some (S3PutObject key (file_body file))
  /\ blobs w' !! key = Some (file_body file)
  /\ forall penv msg,
       ev_id msg = up_id resp ->
       Processor.pr_connect penv = None ->
       issued (Processor.process_document penv msg) w' !! 2%nat = Some (S3GetObject key)
       /\ (Processor.pr_s3 penv = None ->
           fst (s3_get_object (Processor.pr_s3 penv) (Processor.object_key (ev_id msg))
                  w') = Ok (file_body file)).
Proof.
  intros Hok w' key. subst w' key.
  unfold Api.upload_document in *. revert Hok.
  crunch; try discriminate. intros [= <-]; simp.
  repeat split.
  - trace_tail. reflexivity.
  - apply lookup_insert_eq.
  - unfold Processor.process_document. rewrite H1, H0. crunch; trace_tail; reflexivity.
  - intros ->. rewrite H0. crunch; rewrite lookup_insert_eq in *; congruence.
Qed.

Lemma C10_consumer_fetches_producer_key_witness :
  let w' := snd (Api.upload_document (fine_upload 10 "d1") sample_file empty_world) in
  Processor.object_key "d1" = "documents/d1.pdf"
  /\ blobs w' !! "documents/d1.pdf" = Some (file_body sample_file)
  /\ issued (@Processor.process_document sample_externals fine_delivery sample_event) w'
       !! 2%nat = Some (S3GetObject "documents/d1.pdf").
Proof.
  pose proof (@C10_consumer_fetches_producer_key sample_externals
                (fine_upload 10 "d1") sample_file empty_world
                {| up_id := "d1"; up_status := "queued" |} eq_refl) as (Hk & _ & _ & Hb & Hget).
  split; [exact Hk|]. split; [exact Hb|].
  exact (proj1 (Hget fine_delivery sample_event eq_refl eq_refl)).
Defined.

(** ** Rows and queued events have their blob *)

Lemma upload_stores (env : Api.UploadEnv) (file : UploadFile) (w : World) :
  let id := Api.up_uuid env in
  let w' := snd (Api.upload_document env file w) in
  let stored := <[Api.object_key id := file_body file]> (blobs w) in
  (blobs w' = blobs w \/ blobs w' = stored)
  /\ (docs w' = docs w
      \/ (blobs w' = stored
          /\ docs w' = <[id := new_row (Api.up_now env) (slice_to 255 (file_name file))]> (docs w)))
  /\ (queue w' = queue w
      \/ (blobs w' = stored
          /\ queue w' = queue w ++ [("document.process",
                                     {| ev_id := id; ev_filename := file_name file |})])).
Proof. unfold Api.upload_document. crunch; split_and!; auto. Qed.

Lemma search_frame (env : Api.SearchEnv) (q : string) (w : World) :
  blobs (snd (Api.search env q w)) = blobs w
  /\ queue (snd (Api.search env q w)) = queue w
  /\ points (snd (Api.search env q w)) = points w.
Proof. unfold Api.search, live. crunch; split_and!; reflexivity. Qed.

Lemma status_frame (env : Api.StatusEnv) (w : World) :
  blobs (snd (Api.status env w)) = blobs w
  /\ queue (snd (Api.status env w)) = queue w
  /\ cache (snd (Api.status env w)) = cache w
  /\ points (snd (Api.status env w)) = points w.
Proof. unfold Api.status, Api.probe. crunch; split_and!; reflexivity. Qed.

Lemma delivery_frame `{Externals} (env : Processor.ProcessEnv) (msg : Event) (w : World) :
  let w' := snd (Processor.process_document env msg w) in
  blobs w' = blobs w
  /\ queue w' = queue w
  /\ cache w' = cache w
  /\ (docs w' = docs w \/ exists preview, docs w' = alter (mark_processed preview) (ev_id msg) (docs w)).
Proof. unfold Processor.process_document. crunch; split_and!; eauto. Qed.

Lemma is_Some_insert_mono {V} (k k' : string) (v : V) (m : gmap string V) :
  is_Some (m !! k) -> is_Some (<[k' := v]> m !! k).
Proof.
  intros Hk. destruct (decide (k' = k)) as [->|Hne].
  - rewrite lookup_insert_eq. eauto.
  - rewrite lookup_insert_ne by exact Hne. exact Hk.
Qed.

Lemma docs_after_search (env : Api.SearchEnv) (q : string) (w : World) :
  docs (snd (Api.search env q w)) = docs w.
Proof. unfold Api.search, live. crunch; reflexivity. Qed.

Lemma docs_after_status (env : Api.StatusEnv) (w : World) :
  docs (snd (Api.status env w)) = docs w.
Proof. unfold Api.status, Api.probe. crunch; reflexivity. Qed.

Lemma blobs_cover_upload (env : Api.UploadEnv) (file : UploadFile) (w : World) :
  blobs_cover w -> blobs_cover (snd (Api.upload_document env file w)).
Proof.
  intros [Hrows Hevs].
  destruct (upload_stores env file w) as (Hb & Hd & Hq). cbv zeta in *. split.
  - intros id Hsome. destruct Hd as [Hd|[Hbs Hd]]; rewrite Hd in Hsome.
    + destruct Hb as [->| ->]; [|apply is_Some_insert_mono]; apply Hrows, Hsome.
    + rewrite Hbs. destruct (decide (Api.up_uuid env = id)) as [<-|Hne].
      * rewrite lookup_insert_eq. eauto.
      * rewrite lookup_insert_ne in Hsome by exact Hne.
        apply is_Some_insert_mono, Hrows, Hsome.
  - intros subject ev Hin. destruct Hq as [Hq|[Hbs Hq]]; rewrite Hq in Hin.
    + destruct Hb as [->| ->]; [|apply is_Some_insert_mono]; apply (Hevs subject), Hin.
    + rewrite Hbs. apply elem_of_app in Hin as [Hin|Hin%list_elem_of_singleton].
      * apply is_Some_insert_mono, (Hevs subject), Hin.
      * injection Hin as _ ->. cbn [ev_id].
        rewrite object_key_agree, lookup_insert_eq. eauto.
Qed.

Lemma blobs_cover_step `{Externals} (a : action) (w : World) :
  blobs_cover w -> blobs_cover (exec a w).
Proof.
  destruct a as [env file|env q|env|env msg]; cbn [exec].
  - apply blobs_cover_upload.
  - intros [Hrows Hevs]. destruct (search_frame env q w) as (Hb & Hq & _).
    split; [intros id | intros subject ev];
      rewrite Hb, ?Hq, ?docs_after_search; [apply Hrows | apply Hevs].
  - intros [Hrows Hevs]. destruct (status_frame env w) as (Hb & Hq & _).
    split; [intros id | intros subject ev];
      rewrite Hb, ?Hq, ?docs_after_status; [apply Hrows | apply Hevs].
  - intros [Hrows Hevs]. destruct (delivery_frame env msg w) as (Hb & Hq & _ & Hd).
    cbv zeta in *. split; [intros id | intros subject ev]; rewrite Hb.
    + destruct Hd as [->|[preview ->]]; [apply Hrows|].
      rewrite lookup_alter_is_Some. apply Hrows.
    + rewrite Hq. apply Hevs.
Qed.

Lemma blobs_cover_exec_all `{Externals} (l : list action) (w : World) :
  blobs_cover w -> blobs_cover (exec_all l w).
Proof.
  revert w. induction l as [|a l IH]; intros w Hw; [exact Hw|].
  cbn. apply IH, blobs_cover_step, Hw.
Qed.

Lemma blobs_cover_reachable `{Externals} (w : World) : reachable w -> blobs_cover w.
Proof.
  intros [l ->]. apply blobs_cover_exec_all.
  split; [intros id [r Hr] | intros subject ev Hin].
  - cbn [empty_world docs] in Hr. rewrite lookup_empty in Hr. discriminate.
  - cbn [empty_world queue] in Hin. inversion Hin.
Qed.

(** ** Upload ordering *)

(** C2: in every upload call the publish is issued only after the blob
    write and the metadata insert have both succeeded; when the blob write
    fails the call raises, and row table, queue and blobs are untouched;
    when the insert fails after a successful blob write the call raises,
    nothing is published, no row is created and the blob stays behind.
    The row carries the filename as the column stores it, cut to 255
    characters when only spaces follow; the event carries it in full.
    So an upload keeps every row and every queued event covered by a
    blob. *)
Theorem C2_publish_after_blob_and_row
    (env : Api.UploadEnv) (file : UploadFile) (w : World) :
  let id := Api.up_uuid env in
  let ev := {| ev_id := id; ev_filename := file_name file |} in
  let out := Api.upload_document env file w in
  let w' := snd out in
  let calls := issued (Api.upload_document env file) w in
  (existsb is_publish calls = true ->
     calls = [S3PutObject (Api.object_key id) (file_body file);
              PgInsert id (file_name file);
              NatsPublish "document.process" ev]
     /\ blobs w' !! Api.object_key id = Some (file_body file)
     /\ docs w !! id = None
     /\ varchar_fits 255 (file_name file) = true
     /\ docs w' !! id = Some (new_row (Api.up_now env) (slice_to 255 (file_name file))))
  /\ (queue w' <> queue w ->
        existsb is_publish calls = true
        /\ queue w' = queue w ++ [("document.process", ev)])
  /\ (forall e, Api.up_s3 env = Some e ->
        fst out = Raise e
        /\ calls = [S3PutObject (Api.object_key id) (file_body file)]
        /\ blobs w' = blobs w /\ docs w' = docs w /\ queue w' = queue w)
  /\ (Api.up_s3 env = None -> insert_fails env file w ->
        raised (fst out) = true
        /\ existsb is_publish calls = false
        /\ docs w' = docs w /\ queue w' = queue w
        /\ blobs w' !! Api.object_key id = Some (file_body file))
  /\ (blobs_cover w -> blobs_cover w').
Proof.
  cbv zeta. split_and!; [| | | | apply blobs_cover_upload].
  all: unfold insert_fails, Api.upload_document.
  all: crunch; trace_tail; simp.
  all: repeat split; try discriminate; try congruence; intros.
  all: try (apply lookup_insert_eq).
  all: try (destruct_or!; congruence).
Qed.

(** ** Redelivery *)

Lemma filter_none {A} (P : A -> Prop) `{!forall x, Decision (P x)} (l : list A) :
  (forall x, x ∈ l -> ~ P x) -> filter P l = [].
Proof.
  induction l as [|x l IH]; intros Hno; [reflexivity|].
  rewrite filter_cons_False by (apply Hno; left).
  apply IH. intros y Hy. apply Hno. right. exact Hy.
Qed.

Lemma entries_upsert (p : Point) (idx : list Point) :
  entries (pt_id p) (upsert p idx) = [p].
Proof.
  unfold entries, upsert. rewrite filter_app.
  rewrite filter_none.
  - cbn [app]. apply filter_singleton_True; [exact [] | reflexivity].
  - intros q Hq%list_elem_of_filter. tauto.
Qed.

Lemma upsert_twice (p : Point) (idx : list Point) :
  upsert p (upsert p idx) = upsert p idx.
Proof.
  unfold upsert. rewrite filter_app.
  rewrite list_filter_filter_l by tauto.
  rewrite (filter_none _ [p]); [rewrite app_nil_r; reflexivity|].
  intros q ->%list_elem_of_singleton Hne. apply Hne. reflexivity.
Qed.

Lemma mark_processed_twice (preview : string) (id : string) (d : gmap string Row) :
  alter (mark_processed preview) id (alter (mark_processed preview) id d)
  = alter (mark_processed preview) id d.
Proof.
  apply map_eq. intros i. rewrite !lookup_alter.
  repeat case_decide; try congruence. destruct (d !! id); reflexivity.
Qed.

(** What one delivery does to the stores when the blob is present,
    whatever faults it meets. *)
Lemma delivery_effect `{Externals} (env : Processor.ProcessEnv) (msg : Event)
    (content : bytes) (w0 : World) :
  blobs w0 !! Processor.object_key (ev_id msg) = Some content ->
  let w1 := exec (Deliver env msg) w0 in
  blobs w1 = blobs w0
  /\ (points w1 = points w0 \/ points w1 = upsert (point_of msg content) (points w0))
  /\ (docs w1 = docs w0
      \/ docs w1 = alter (mark_processed (preview_of content)) (ev_id msg) (docs w0))
  /\ (env = fine_delivery ->
      points w1 = upsert (point_of msg content) (points w0)
      /\ docs w1 = alter (mark_processed (preview_of content)) (ev_id msg) (docs w0)).
Proof.
  intros Hb. unfold exec, Processor.process_document.
  crunch; rewrite ?Hb in *; simplify_eq; simp.
  all: repeat split; auto; intros.
  all: subst env; simp; simplify_eq.
  all: match goal with Hs : is_success _ = _ |- _ => vm_compute in Hs; discriminate end.
Qed.

(** With the blob in place, a delivery and a redelivery leave one entry
    for the id, and the index and rows of the single delivery, also when
    the other delivery of the pair met faults. *)
Lemma redelivery_with_blob
    `{Externals} (msg : Event) (content : bytes) (w : World) :
  blobs w !! Processor.object_key (ev_id msg) = Some content ->
  let once := exec (Deliver fine_delivery msg) w in
  let twice := exec (Deliver fine_delivery msg) once in
  entries (ev_id msg) (points twice) = [point_of msg content]
  /\ length (entries (ev_id msg) (points twice)) = 1%nat
  /\ points twice = points once
  /\ docs twice = docs once
  /\ docs once = alter (mark_processed (preview_of content)) (ev_id msg) (docs w)
  /\ (forall env, points (exec (Deliver env msg) once) = points once
                  /\ docs (exec (Deliver env msg) once) = docs once)
  /\ (forall env, points (exec (Deliver fine_delivery msg) (exec (Deliver env msg) w))
                  = points once
                  /\ docs (exec (Deliver fine_delivery msg) (exec (Deliver env msg) w))
                  = docs once).
Proof.
  intros Hblob once twice.
  pose proof (fun env w0 => delivery_effect env msg content w0) as Hrun. cbv zeta in Hrun.
  destruct (Hrun fine_delivery w Hblob) as (Hb1 & _ & _ & Hfine1).
  destruct (Hfine1 eq_refl) as [Hp1 Hd1]. fold once in Hb1, Hp1, Hd1.
  assert (Hblob1 : blobs once !! Processor.object_key (ev_id msg) = Some content)
    by (rewrite Hb1; exact Hblob).
  assert (Hafter : forall env, points (exec (Deliver env msg) once) = points once
                               /\ docs (exec (Deliver env msg) once) = docs once).
  { intros env. destruct (Hrun env once Hblob1) as (_ & Hp & Hd & _). split.
    - destruct Hp as [->| ->]; [reflexivity|]. rewrite Hp1. apply upsert_twice.
    - destruct Hd as [->| ->]; [reflexivity|]. rewrite Hd1. apply mark_processed_twice. }
  destruct (Hafter fine_delivery) as [Hp2 Hd2]. fold twice in Hp2, Hd2.
  split_and!.
  - rewrite Hp2, Hp1. apply (entries_upsert (point_of msg content)).
  - rewrite Hp2, Hp1.
    rewrite (entries_upsert (point_of msg content)). reflexivity.
  - exact Hp2.
  - exact Hd2.
  - exact Hd1.
  - exact Hafter.
  - intros env.
    destruct (Hrun env w Hblob) as (Hb & Hp & Hd & _).
    assert (Hblob' : blobs (exec (Deliver env msg) w) !! Processor.object_key (ev_id msg)
                     = Some content) by (rewrite Hb; exact Hblob).
    destruct (Hrun fine_delivery _ Hblob') as (_ & _ & _ & Hf).
    destruct (Hf eq_refl) as [-> ->]. rewrite Hp1, Hd1. split.
    + destruct Hp as [->| ->]; [reflexivity | apply upsert_twice].
    + destruct Hd as [->| ->]; [reflexivity | apply mark_processed_twice].
Qed.

(** C1: for every event in the queue of a world the system can reach, a
    delivery followed by a redelivery leaves exactly one entry for its id
    in the Vector Index, the one carrying the payload of the event, and the
    index and the rows are those of the single delivery; the redelivery
    changes nothing even when it meets faults, and a faulty first delivery
    followed by a good one ends in the same index and rows. *)
Theorem C1_redelivery_is_idempotent
    `{Externals} (w : World) (subject : string) (msg : Event) :
  reachable w ->
  (subject, msg) ∈ queue w ->
  let once := exec (Deliver fine_delivery msg) w in
  let twice := exec (Deliver fine_delivery msg) once in
  exists content,
    blobs w !! Processor.object_key (ev_id msg) = Some content
    /\ entries (ev_id msg) (points twice) = [point_of msg content]
    /\ length (entries (ev_id msg) (points twice)) = 1%nat
    /\ points twice = points once
    /\ docs twice = docs once
    /\ docs once = alter (mark_processed (preview_of content)) (ev_id msg) (docs w)
    /\ (forall env, points (exec (Deliver env msg) once) = points once
                    /\ docs (exec (Deliver env msg) once) = docs once)
    /\ (forall env, points (exec (Deliver fine_delivery msg) (exec (Deliver env msg) w))
                    = points once
                    /\ docs (exec (Deliver fine_delivery msg) (exec (Deliver env msg) w))
                    = docs once).
Proof.
  intros Hreach Hin once twice.
  destruct (proj2 (blobs_cover_reachable w Hreach) subject msg Hin) as [content Hblob].
  exists content. split; [exact Hblob|].
  exact (redelivery_with_blob msg content w Hblob).
Qed.

Lemma C1_redelivery_is_idempotent_witness :
  length (entries "d1"
    (points (@exec sample_externals (Deliver fine_delivery sample_event)
               (@exec sample_externals (Deliver fine_delivery sample_event)
                  uploaded_world)))) = 1%nat.
Proof.
  destruct (@C1_redelivery_is_idempotent sample_externals uploaded_world
              "document.process" sample_event) as (content & _ & _ & Hone & _).
  - exists [Upload (fine_upload 10 "d1") sample_file]. reflexivity.
  - vm_compute. left.
  - exact Hone.
Defined.

(** ** Processing state *)

Lemma docs_after_upload (env : Api.UploadEnv) (file : UploadFile) (w : World) :
  docs (snd (Api.upload_document env file w)) = docs w
  \/ (docs w !! Api.up_uuid env = None
      /\ docs (snd (Api.upload_document env file w))
         = <[Api.up_uuid env := new_row (Api.up_now env) (slice_to 255 (file_name file))]> (docs w)).
Proof. unfold Api.upload_document. crunch; auto. Qed.

(** A delivery either leaves the rows alone or has gone through the blob
    fetch, the upsert request and the update, in that order. *)
Lemma docs_after_delivery `{Externals} (env : Processor.ProcessEnv) (msg : Event) (w : World) :
  let w' := snd (Processor.process_document env msg w) in
  docs w' = docs w
  \/ exists content status,
       blobs w !! Processor.object_key (ev_id msg) = Some content
       /\ Processor.pr_qdrant env = Replied status tt
       /\ docs w' = alter (mark_processed (preview_of content)) (ev_id msg) (docs w)
       /\ points w' = (if is_success status
                       then upsert (point_of msg content) (points w) else points w)
       /\ take 5 (issued (Processor.process_document env msg) w)
          = [Stdout ("Processing document " +:+ ev_id msg); PgConnect;
             S3GetObject (Processor.object_key (ev_id msg));
             QdrantPutPoints (point_of msg content);
             PgUpdate (preview_of content) (ev_id msg)].
Proof.
  unfold Processor.process_document.
  crunch; auto.
  all: repeat match goal with u : unit |- _ => destruct u end.
  all: right; eexists _, _; split_and!; try eassumption.
  all: try reflexivity.
  all: try match goal with
           | Hs : is_success _ = _ |- context [is_success _] => rewrite Hs; reflexivity
           end.
  all: trace_tail; reflexivity.
Qed.

Lemma state_insert_other (id id' : string) (r : Row) (d : gmap string Row) :
  id' <> id -> state_of_row <$> <[id' := r]> d !! id = state_of_row <$> d !! id.
Proof. intros Hne. rewrite lookup_insert_ne by exact Hne. reflexivity. Qed.

(** One request moves the state of an id along [absent -> Pending ->
    Processed] only; the first move is an upload that drew this id, the
    second a delivery for this id that got a response to its upsert. *)
Lemma state_step `{Externals} (a : action) (w : World) (id : string) :
  let w' := exec a w in
  (processing_state_of w id = None ->
     processing_state_of w' id = None
     \/ (processing_state_of w' id = Some Pending
         /\ exists env file, a = Upload env file /\ Api.up_uuid env = id))
  /\ (processing_state_of w id = Some Processed ->
        processing_state_of w' id = Some Processed)
  /\ (processing_state_of w id = Some Pending ->
        processing_state_of w' id = Some Pending
        \/ (processing_state_of w' id = Some Processed
            /\ exists env msg content status,
                 a = Deliver env msg /\ ev_id msg = id
                 /\ blobs w !! Processor.object_key id = Some content
                 /\ Processor.pr_qdrant env = Replied status tt
                 /\ take 5 (issued (Processor.process_document env msg) w)
                    = [Stdout ("Processing document " +:+ id); PgConnect;
                       S3GetObject (Processor.object_key id);
                       QdrantPutPoints (point_of msg content);
                       PgUpdate (preview_of content) id]
                 /\ (is_success status = true ->
                     entries id (points w') = [point_of msg content]))).
Proof.
  unfold processing_state_of. cbv zeta.
  destruct a as [env file|env q|env|env msg]; cbn [exec].
  - destruct (docs_after_upload env file w) as [->|[Hfree ->]]; [tauto|].
    destruct (decide (Api.up_uuid env = id)) as [<-|Hne].
    + rewrite Hfree, lookup_insert_eq. cbn. split_and!; try discriminate.
      intros _. right. split; [reflexivity|]. eauto.
    + rewrite state_insert_other by exact Hne. tauto.
  - rewrite docs_after_search. tauto.
  - rewrite docs_after_status. tauto.
  - destruct (docs_after_delivery env msg w)
      as [->|(content & status & Hblob & Hreply & -> & Hpts & Hcalls)]; [tauto|].
    rewrite lookup_alter. case_decide as Hid; [subst id|tauto].
    destruct (docs w !! ev_id msg) as [r|] eqn:Hrow; cbn; [|tauto].
    split_and!; try discriminate; try reflexivity.
    intros _. right. split; [reflexivity|].
    exists env, msg, content, status. split_and!; try done.
    intros Hs. etrans; [exact (f_equal (entries (ev_id msg)) Hpts)|].
    rewrite Hs. apply (entries_upsert (point_of msg content)).
Qed.

Lemma processed_is_absorbing `{Externals} (l : list action) (w : World) (id : string) :
  processing_state_of w id = Some Processed ->
  processing_state_of (exec_all l w) id = Some Processed.
Proof.
  revert w. induction l as [|a l IH]; intros w Hw; [exact Hw|].
  cbn. apply IH. exact (proj1 (proj2 (state_step a w id)) Hw).
Qed.

(** C4 (as the code has it): a row is created Pending, and only by an
    upload that drew its id; Processed is never left again, over any
    sequence of requests; and the move from Pending to Processed is made
    only by a delivery for that id, after the blob fetch and after the
    upsert request has come back with a response.  The status of that
    response is not inspected: the embedding is in the Vector Index when
    the response is a success. *)
Theorem C4_processing_state_moves
    `{Externals} (l : list action) (a : action) (w : World) (id : string) :
  let w' := exec a w in
  (processing_state_of w id = Some Processed ->
     processing_state_of (exec_all l w) id = Some Processed)
  /\ (processing_state_of w id = None ->
        processing_state_of w' id = None
        \/ (processing_state_of w' id = Some Pending
            /\ exists env file, a = Upload env file /\ Api.up_uuid env = id))
  /\ (processing_state_of w id = Some Pending ->
        processing_state_of w' id = Some Pending
        \/ (processing_state_of w' id = Some Processed
            /\ exists env msg content status,
                 a = Deliver env msg /\ ev_id msg = id
                 /\ blobs w !! Processor.object_key id = Some content
                 /\ Processor.pr_qdrant env = Replied status tt
                 /\ take 5 (issued (Processor.process_document env msg) w)
                    = [Stdout ("Processing document " +:+ id); PgConnect;
                       S3GetObject (Processor.object_key id);
                       QdrantPutPoints (point_of msg content);
                       PgUpdate (preview_of content) id]
                 /\ (is_success status = true ->
                     entries id (points w') = [point_of msg content]))).
Proof.
  intros w'. destruct (state_step a w id) as (Hnone & _ & Hpending).
  split_and!; [apply processed_is_absorbing | exact Hnone | exact Hpending].
Qed.

(** C4, the claim as stated fails: a delivery whose upsert is answered
    with status 404 moves the row from Pending to Processed although the
    Vector Index holds no entry for the id. *)
Lemma C4_processed_without_embedding :
  processing_state_of uploaded_world "d1" = Some Pending
  /\ processing_state_of world_after_rejected_upsert "d1" = Some Processed
  /\ entries "d1" (points world_after_rejected_upsert) = [].
Proof. vm_compute. repeat split. Qed.

(** ** Failures of a delivery *)

(** C5 (as the code has it): a delivery returns normally exactly when no
    step fails; otherwise the exception of the first failing step leaves
    [process_document], be it an absent blob or an unreachable store.  In
    neither case does the handler publish the event again, and the only
    line it has written is the one announcing the document. *)
Theorem C5_failures_propagate
    `{Externals} (env : Processor.ProcessEnv) (msg : Event) (w : World) :
  let out := Processor.process_document env msg w in
  let calls := issued (Processor.process_document env msg) w in
  fst out = match first_failure env msg w with
            | Some e => Raise e
            | None => Ok tt
            end
  /\ queue (snd out) = queue w
  /\ existsb is_publish calls = false
  /\ stdout_lines calls
     = ("Processing document " +:+ ev_id msg)
       :: match first_failure env msg w with
          | Some _ => []
          | None => ["Processed document " +:+ ev_id msg]
          end
  /\ (Processor.pr_connect env = None -> last calls = Some PgClose).
Proof.
  unfold first_failure, Processor.process_document.
  crunch; trace_tail; split_and!; try reflexivity; try discriminate.
Qed.

(** C5, the claim as stated fails: with the Vector Index unreachable at
    the upsert (step 4) the handler raises, the queue is as it was and no
    publish was issued, so the event is not handed back for redelivery;
    with the blob absent (step 1) the handler raises as well and has
    written no line about the failure. *)
Lemma C5_transient_fault_not_requeued :
  fst (@Processor.process_document sample_externals unreachable_index_delivery sample_event
         uploaded_world) = Raise HttpTransport
  /\ queue world_after_unreachable_index = queue uploaded_world
  /\ existsb is_publish
       (issued (@Processor.process_document sample_externals unreachable_index_delivery
                  sample_event) uploaded_world) = false
  /\ fst (@Processor.process_document sample_externals fine_delivery sample_event
            empty_world) = Raise NoSuchKey
  /\ stdout_lines
       (issued (@Processor.process_document sample_externals fine_delivery sample_event)
          empty_world) = ["Processing document d1"].
Proof. vm_compute. repeat split. Qed.

(** ** Search and the Result Cache *)

Lemma search_hit (env : Api.SearchEnv) (q : string) (w : World) (hit : SearchResult) :
  Api.se_get env = None ->
  live (Api.se_now env) (cache w !! Api.cache_key q) = Some hit ->
  Api.search env q w
  = (Ok hit, set_trace (fun t => t ++ [RedisGet (Api.cache_key q)]) w).
Proof.
  intros Hget Hlive. unfold Api.search. autounfold with req_ops. simp.
  rewrite Hget. simp. rewrite Hlive. reflexivity.
Qed.

Lemma search_miss (env : Api.SearchEnv) (q : string) (w : World)
    (status : Z) (fields : list (string * json)) :
  Api.se_get env = None ->
  live (Api.se_now env) (cache w !! Api.cache_key q) = None ->
  Api.se_qdrant env Api.search_request (points w) = Replied status (Some (JObj fields)) ->
  let result := {| query := q; results := dict_get "result" fields (JArr []) |} in
  let out := Api.search env q w in
  issued (Api.search env q) w
  = [RedisGet (Api.cache_key q); QdrantSearch Api.search_request;
     RedisSetex (Api.cache_key q) 300 result]
  /\ fst out = match Api.se_setex env with Some e => Raise e | None => Ok result end
  /\ cache (snd out)
     = match Api.se_setex env with
       | Some _ => cache w
       | None => <[Api.cache_key q := (result, Api.se_now env + 300)]> (cache w)
       end.
Proof.
  intros Hget Hlive Hreply. unfold Api.search. autounfold with req_ops. simp.
  rewrite Hget. simp. rewrite Hlive. simp. rewrite Hreply. simp.
  destruct (Api.se_setex env); simp; trace_tail; split_and!; reflexivity.
Qed.

(** After a search that returned [r], the cache holds [r] under the key of
    the query, in an entry that is still live; a miss sets the expiry 300
    units ahead. *)
Lemma search_leaves_entry (env : Api.SearchEnv) (q : string) (w : World) (r : SearchResult) :
  fst (Api.search env q w) = Ok r ->
  exists expiry,
    cache (snd (Api.search env q w)) !! Api.cache_key q = Some (r, expiry)
    /\ Api.se_now env < expiry
    /\ (live (Api.se_now env) (cache w !! Api.cache_key q) = None ->
        expiry = Api.se_now env + 300).
Proof.
  unfold Api.search, live. crunch; try discriminate; intros [= <-]; simplify_eq.
  all: eexists; split_and!.
  all: try apply lookup_insert_eq; try eassumption; try reflexivity.
  all: try (apply Z.ltb_lt; eassumption); try lia; try discriminate.
Qed.

Lemma live_entry (now expiry : Z) (r : SearchResult) :
  now < expiry -> live now (Some (r, expiry)) = Some r.
Proof. intros Hlt. unfold live. rewrite (proj2 (Z.ltb_lt _ _) Hlt). reflexivity. Qed.

Lemma hit_issues_get_only (env : Api.SearchEnv) (q : string) (w : World) (hit : SearchResult) :
  Api.se_get env = None ->
  live (Api.se_now env) (cache w !! Api.cache_key q) = Some hit ->
  issued (Api.search env q) w = [RedisGet (Api.cache_key q)].
Proof.
  intros Hget Hlive. unfold issued. rewrite (search_hit env q w hit Hget Hlive).
  simp. apply drop_trace_app.
Qed.

Lemma dict_get_absent (key : string) (fields : list (string * json)) (default : json) :
  has_key key fields = false -> dict_get key fields default = default.
Proof.
  induction fields as [|[k v] rest IH]; cbn; [reflexivity|].
  destruct (String.eqb k key); cbn; [discriminate | exact IH].
Qed.

Lemma cache_key_inj (q q' : string) : Api.cache_key q' = Api.cache_key q -> q' = q.
Proof. unfold Api.cache_key. intros Heq. exact (String.app_inj _ _ _ Heq). Qed.

Lemma cache_after_upload (env : Api.UploadEnv) (file : UploadFile) (w : World) :
  cache (snd (Api.upload_document env file w)) = cache w.
Proof. unfold Api.upload_document. crunch; reflexivity. Qed.

Lemma cache_after_search (env : Api.SearchEnv) (q : string) (w : World) :
  cache (snd (Api.search env q w)) = cache w
  \/ (live (Api.se_now env) (cache w !! Api.cache_key q) = None
      /\ exists r, cache (snd (Api.search env q w))
                   = <[Api.cache_key q := (r, Api.se_now env + 300)]> (cache w)).
Proof.
  unfold Api.search. autounfold with req_ops. simp.
  destruct (Api.se_get env); simp; [left; reflexivity|].
  destruct (live _ _) eqn:Hlive; simp; [left; reflexivity|].
  repeat (split_match; simp); eauto.
Qed.

(** A live entry stays as it is through every request made before its
    expiry. *)
Lemma entry_stable_step `{Externals} (a : action) (w : World) (q : string)
    (r : SearchResult) (expiry : Z) :
  clock_before expiry a ->
  cache w !! Api.cache_key q = Some (r, expiry) ->
  cache (exec a w) !! Api.cache_key q = Some (r, expiry).
Proof.
  intros Hclock Hentry. destruct a as [env file|env q'|env|env msg]; cbn [exec].
  - rewrite cache_after_upload. exact Hentry.
  - cbn in Hclock. destruct (cache_after_search env q' w) as [->|(Hdead & r' & ->)];
      [exact Hentry|].
    destruct (decide (Api.cache_key q' = Api.cache_key q)) as [Heq|Hne].
    + rewrite Heq, Hentry, (live_entry _ _ _ Hclock) in Hdead. discriminate.
    + rewrite lookup_insert_ne by exact Hne. exact Hentry.
  - destruct (status_frame env w) as (_ & _ & -> & _). exact Hentry.
  - destruct (delivery_frame env msg w) as (_ & _ & Hc & _). cbv zeta in Hc.
    rewrite Hc. exact Hentry.
Qed.

Lemma entry_stable `{Externals} (l : list action) (w : World) (q : string)
    (r : SearchResult) (expiry : Z) :
  Forall (clock_before expiry) l ->
  cache w !! Api.cache_key q = Some (r, expiry) ->
  cache (exec_all l w) !! Api.cache_key q = Some (r, expiry).
Proof.
  intros Hl. revert w. induction Hl as [|a l Ha _ IH]; intros w Hentry; [exact Hentry|].
  cbn. apply IH, entry_stable_step; assumption.
Qed.

(** C3 (as the code has it): a failure of the cache read leaves [search]
    as that exception, before the Vector Index is contacted; a failure of
    the cache write leaves [search] as that exception after the Vector
    Index has answered, and the computed result is not returned.  With the
    cache reachable and no live entry, the result is computed from the
    answer of the Vector Index. *)
Theorem C3_cache_faults_propagate
    (env : Api.SearchEnv) (q : string) (w : World) :
  let out := Api.search env q w in
  let calls := issued (Api.search env q) w in
  (forall e, Api.se_get env = Some e ->
     out = (Raise e, set_trace (fun t => t ++ [RedisGet (Api.cache_key q)]) w)
     /\ calls = [RedisGet (Api.cache_key q)]
     /\ existsb is_vector_index_call calls = false)
  /\ (forall status fields,
        Api.se_get env = None ->
        live (Api.se_now env) (cache w !! Api.cache_key q) = None ->
        Api.se_qdrant env Api.search_request (points w)
        = Replied status (Some (JObj fields)) ->
        (forall e, Api.se_setex env = Some e ->
           fst out = Raise e
           /\ existsb is_vector_index_call calls = true
           /\ cache (snd out) = cache w)
        /\ (Api.se_setex env = None ->
            fst out = Ok {| query := q; results := dict_get "result" fields (JArr []) |})).
Proof.
  cbv zeta. split.
  - intros e Hget. unfold issued, Api.search. autounfold with req_ops. simp.
    rewrite Hget. simp. rewrite drop_trace_app. split_and!; reflexivity.
  - intros status fields Hget Hlive Hreply.
    destruct (search_miss env q w status fields Hget Hlive Hreply) as (Hcalls & Hout & Hcache).
    rewrite Hcalls, Hout, Hcache. split.
    + intros e ->. split_and!; reflexivity.
    + intros ->. reflexivity.
Qed.

(** C3, the claim as stated fails: with the cache unreachable the search
    for [emissions] raises the cache error and never asks the Vector Index,
    which would have answered; a failing cache write raises as well; the
    same search on a plain miss returns the hits. *)
Lemma C3_search_raises_when_cache_down :
  fst (Api.search (cache_down 0 sample_body) "emissions" empty_world) = Raise RedisUnavailable
  /\ issued (Api.search (cache_down 0 sample_body) "emissions") empty_world
     = [RedisGet "search:emissions"]
  /\ fst (Api.search (cache_write_down 0 sample_body) "emissions" empty_world)
     = Raise RedisUnavailable
  /\ fst (Api.search (index_answers 0 200 sample_body) "emissions" empty_world)
     = Ok {| query := "emissions"; results := sample_hits |}.
Proof. vm_compute. repeat split. Qed.

#[local] Hint Unfold qdrant_response : req_ops.

(** [search] is its first half followed, on a miss, by its second half. *)
Lemma search_in_two_phases (env : Api.SearchEnv) (q : string) (w : World) :
  Api.search env q w
  = (r <- Api.search_until_await env q ;;
     match r with
     | Some hit => ret hit
     | None => Api.search_after_await env q
     end) w.
Proof.
  unfold Api.search, Api.search_until_await, Api.search_after_await.
  crunch; reflexivity.
Qed.

Lemma cache_after_ask (env : Api.SearchEnv) (q : string) (w : World) :
  cache (snd (Api.search_until_await env q w)) = cache w.
Proof. unfold Api.search_until_await, live. crunch; reflexivity. Qed.

Lemma cache_after_resume (env : Api.SearchEnv) (q : string) (w : World) :
  cache (snd (Api.search_after_await env q w)) = cache w
  \/ exists r, cache (snd (Api.search_after_await env q w))
               = <[Api.cache_key q := (r, Api.se_now env + 300)]> (cache w).
Proof. unfold Api.search_after_await. crunch; eauto. Qed.

Lemma resume_leaves_entry (env : Api.SearchEnv) (q : string) (w : World) (r : SearchResult) :
  fst (Api.search_after_await env q w) = Ok r ->
  cache (snd (Api.search_after_await env q w)) !! Api.cache_key q
  = Some (r, Api.se_now env + 300).
Proof.
  unfold Api.search_after_await. crunch; try discriminate.
  all: intros [= <-]; apply lookup_insert_eq.
Qed.

(** A search that has returned leaves its result in the cache, in an entry
    that is still live: the one it found, or one it wrote, which expires
    300 units later. *)
Lemma completes_leaves_entry (env : Api.SearchEnv) (q : string) (w : World)
    (r : SearchResult) (w1 : World) :
  completes env q w r w1 ->
  exists expiry,
    cache w1 !! Api.cache_key q = Some (r, expiry)
    /\ Api.se_now env < expiry
    /\ (expiry = Api.se_now env + 300
        \/ live (Api.se_now env) (cache w !! Api.cache_key q) = Some r).
Proof.
  intros [Hrun|Hrun].
  - assert (Hok : fst (Api.search env q w) = Ok r) by (rewrite Hrun; reflexivity).
    destruct (search_leaves_entry env q w r Hok) as (expiry & Hentry & Hnow & Hmiss).
    rewrite Hrun in Hentry. exists expiry. split_and!; [exact Hentry | exact Hnow |].
    destruct (live (Api.se_now env) (cache w !! Api.cache_key q)) as [hit|] eqn:Hlive.
    + right. destruct (Api.se_get env) as [e|] eqn:Hget.
      * exfalso. revert Hok. unfold Api.search. autounfold with req_ops. simp.
        rewrite Hget. simp. discriminate.
      * rewrite (search_hit env q w hit Hget Hlive) in Hok. injection Hok as <-. reflexivity.
    + left. apply Hmiss. reflexivity.
  - assert (Hok : fst (Api.search_after_await env q w) = Ok r) by (rewrite Hrun; reflexivity).
    pose proof (resume_leaves_entry env q w r Hok) as Hentry. rewrite Hrun in Hentry.
    exists (Api.se_now env + 300). split_and!; [exact Hentry | lia | left; reflexivity].
Qed.

Lemma entry_kept_step `{Externals} (m : move) (w : World) (q : string)
    (r : SearchResult) (expiry : Z) :
  keeps_entry q expiry m ->
  cache w !! Api.cache_key q = Some (r, expiry) ->
  cache (play m w) !! Api.cache_key q = Some (r, expiry).
Proof.
  intros Hkeeps Hentry. destruct m as [a|env q'|env q']; cbn [play].
  - apply entry_stable_step; assumption.
  - rewrite cache_after_ask. exact Hentry.
  - cbn in Hkeeps. destruct (cache_after_resume env q' w) as [->|[r' ->]]; [exact Hentry|].
    rewrite lookup_insert_ne; [exact Hentry|].
    intros Heq. apply Hkeeps. exact (cache_key_inj _ _ Heq).
Qed.

Lemma entry_kept `{Externals} (l : list move) (w : World) (q : string)
    (r : SearchResult) (expiry : Z) :
  Forall (keeps_entry q expiry) l ->
  cache w !! Api.cache_key q = Some (r, expiry) ->
  cache (play_all l w) !! Api.cache_key q = Some (r, expiry).
Proof.
  intros Hl. revert w. induction Hl as [|m l Hm _ IH]; intros w Hentry; [exact Hentry|].
  cbn. apply IH, entry_kept_step; assumption.
Qed.

(** C6 (as the code has it): a search that finds a live entry returns
    the cached value as it is and issues the cache read only, so the
    Vector Index is not contacted.  After a search that returned [r1],
    served in one go or resumed after its await, every search for the
    same query made before the entry expires returns [r1] again, whatever
    the Vector Index would answer then, as long as no search for that
    query that was in flight resumes in between; the entry written on a
    miss expires 300 units after it is written. *)
Theorem C6_hit_returns_cached_result
    `{Externals} (env1 env2 : Api.SearchEnv) (q : string) (w w1 : World) (r1 : SearchResult) :
  Api.se_get env2 = None ->
  completes env1 q w r1 w1 ->
  (forall hit, live (Api.se_now env2) (cache w !! Api.cache_key q) = Some hit ->
     Api.search env2 q w = (Ok hit, set_trace (fun t => t ++ [RedisGet (Api.cache_key q)]) w)
     /\ existsb is_vector_index_call (issued (Api.search env2 q) w) = false)
  /\ exists expiry,
       cache w1 !! Api.cache_key q = Some (r1, expiry)
       /\ Api.se_now env1 < expiry
       /\ (expiry = Api.se_now env1 + 300
           \/ live (Api.se_now env1) (cache w !! Api.cache_key q) = Some r1)
       /\ (forall between,
             Forall (keeps_entry q expiry) between ->
             Api.se_now env2 < expiry ->
             let w2 := play_all between w1 in
             fst (Api.search env2 q w2) = Ok r1
             /\ issued (Api.search env2 q) w2 = [RedisGet (Api.cache_key q)]
             /\ existsb is_vector_index_call (issued (Api.search env2 q) w2) = false).
Proof.
  intros Hget Hfirst. split.
  - intros hit Hlive. split; [exact (search_hit env2 q w hit Hget Hlive)|].
    rewrite (hit_issues_get_only env2 q w hit Hget Hlive). reflexivity.
  - destruct (completes_leaves_entry env1 q w r1 w1 Hfirst) as (expiry & Hentry & Hnow & Hhow).
    exists expiry. split_and!; [exact Hentry | exact Hnow | exact Hhow |].
    intros between Hbetween Hlt w2.
    assert (Hlive : live (Api.se_now env2) (cache w2 !! Api.cache_key q) = Some r1).
    { subst w2. rewrite (entry_kept between w1 q r1 expiry Hbetween Hentry).
      apply live_entry. exact Hlt. }
    rewrite (search_hit env2 q w2 r1 Hget Hlive).
    rewrite (hit_issues_get_only env2 q w2 r1 Hget Hlive). split_and!; reflexivity.
Qed.

Lemma C6_hit_returns_cached_result_witness :
  fst (Api.search (index_down 299) "emissions"
         (@play_all sample_externals
            [Serve (Upload (fine_upload 10 "d1") sample_file);
             SearchAsks (index_answers 20 200 sample_body) "emissions";
             Serve (Deliver fine_delivery sample_event);
             SearchResumes (index_answers 30 200 grown_body) "documents"]
            (snd (Api.search (index_answers 0 200 sample_body) "emissions" empty_world))))
  = Ok {| query := "emissions"; results := sample_hits |}.
Proof.
  destruct (@C6_hit_returns_cached_result sample_externals
              (index_answers 0 200 sample_body) (index_down 299) "emissions" empty_world
              (snd (Api.search (index_answers 0 200 sample_body) "emissions" empty_world))
              {| query := "emissions"; results := sample_hits |} eq_refl
              (or_introl eq_refl))
    as (_ & expiry & Hentry & _ & _ & Hsecond).
  assert (Hexp : expiry = 300).
  { assert (Hstored : cache (snd (Api.search (index_answers 0 200 sample_body) "emissions"
                                    empty_world)) !! Api.cache_key "emissions"
                      = Some ({| query := "emissions"; results := sample_hits |}, 300))
      by (vm_compute; reflexivity).
    rewrite Hstored in Hentry. injection Hentry as <-. reflexivity. }
  subst expiry.
  apply (Hsecond [Serve (Upload (fine_upload 10 "d1") sample_file);
                  SearchAsks (index_answers 20 200 sample_body) "emissions";
                  Serve (Deliver fine_delivery sample_event);
                  SearchResumes (index_answers 30 200 grown_body) "documents"]).
  - repeat constructor. discriminate.
  - reflexivity.
Defined.

(** C6, the claim as stated fails: two searches for [emissions] miss the
    cache while both are in flight; the first is resumed at 2 and caches
    one hit, so a search at 3 returns that hit from the cache; the second
    is resumed at 4 with the answer of an index that has grown meanwhile
    and overwrites the live entry, so a search at 5 returns two hits from
    the cache.  Both cached answers were given well within 300 units. *)
Lemma C6_hits_differ_when_miss_resumes :
  fst (Api.search_until_await (index_answers 0 200 sample_body) "emissions" empty_world)
  = Ok None
  /\ fst (Api.search_until_await (index_answers 1 200 sample_body) "emissions"
            (snd (Api.search_until_await (index_answers 0 200 sample_body) "emissions"
                    empty_world)))
     = Ok None
  /\ fst (Api.search_after_await (index_answers 2 200 sample_body) "emissions" both_asked)
     = Ok {| query := "emissions"; results := sample_hits |}
  /\ fst (Api.search (index_down 3) "emissions" (first_resumed (200, sample_body)))
     = Ok {| query := "emissions"; results := sample_hits |}
  /\ fst (Api.search_after_await (index_answers 4 200 grown_body) "emissions"
            (snd (Api.search (index_down 3) "emissions" (first_resumed (200, sample_body)))))
     = Ok {| query := "emissions"; results := grown_hits |}
  /\ fst (Api.search (index_down 5) "emissions"
            (second_resumed (200, sample_body) (200, grown_body)))
     = Ok {| query := "emissions"; results := grown_hits |}
  /\ sample_hits <> grown_hits.
Proof. vm_compute. repeat split. discriminate. Qed.

(** C7: on a miss [search] asks the Vector Index with the request
    [{vector: 384 times 0.1, limit: 3, with_payload: true}], which does not
    depend on the query; from a response whose body is a dict it builds the
    result from the query and the value under [result], stores it under the
    unnormalised query (prefixed with [search:]) for 300 units and returns
    it. *)
Theorem C7_miss_computes_and_caches
    (env : Api.SearchEnv) (q : string) (w : World) (status : Z) (fields : list (string * json)) :
  Api.se_get env = None ->
  live (Api.se_now env) (cache w !! Api.cache_key q) = None ->
  Api.se_qdrant env Api.search_request (points w) = Replied status (Some (JObj fields)) ->
  Api.se_setex env = None ->
  let result := {| query := q; results := dict_get "result" fields (JArr []) |} in
  let out := Api.search env q w in
  Api.search_request = {| sr_vector := repeat (1 # 10)%Q 384; limit := 3; with_payload := true |}
  /\ issued (Api.search env q) w
     = [RedisGet ("search:" +:+ q); QdrantSearch Api.search_request;
        RedisSetex ("search:" +:+ q) 300 result]
  /\ fst out = Ok result
  /\ cache (snd out) = <["search:" +:+ q := (result, Api.se_now env + 300)]> (cache w)
  /\ (forall hits rest, fields = ("result", hits) :: rest -> results result = hits)
  /\ (forall q', Api.cache_key q' = Api.cache_key q -> q' = q).
Proof.
  intros Hget Hlive Hreply Hsetex result out.
  destruct (search_miss env q w status fields Hget Hlive Hreply) as (Hcalls & Hout & Hcache).
  rewrite Hsetex in Hout, Hcache.
  split_and!; [reflexivity | exact Hcalls | exact Hout | exact Hcache | | apply cache_key_inj].
  intros hits rest ->. reflexivity.
Qed.

Lemma C7_miss_computes_and_caches_witness :
  fst (Api.search (index_answers 0 200 sample_body) "emissions" empty_world)
  = Ok {| query := "emissions"; results := sample_hits |}
  /\ cache (snd (Api.search (index_answers 0 200 sample_body) "emissions" empty_world))
       !! "search:emissions"
     = Some ({| query := "emissions"; results := sample_hits |}, 300).
Proof.
  destruct (C7_miss_computes_and_caches (index_answers 0 200 sample_body) "emissions"
              empty_world 200
              [("result", sample_hits); ("status", JStr "ok"); ("time", JNum (1 # 1000))]
              eq_refl eq_refl eq_refl eq_refl)
    as (_ & _ & Hout & Hcache & _).
  split; [exact Hout|]. rewrite Hcache. apply lookup_insert_eq.
Defined.

(** C9 (as the code has it): on a miss, when the body of the Vector
    Index response is a dict without a [result] field, [search] returns
    the query with an empty result list and caches it for 300 units; every
    later search for the query before that expiry returns the cached empty
    result and does not ask the Vector Index again, as long as no search
    for that query that was in flight resumes in between. *)
Theorem C9_error_response_cached_as_empty
    `{Externals} (env env2 : Api.SearchEnv) (q : string) (w : World) (status : Z)
    (fields : list (string * json)) (between : list move) :
  Api.se_get env = None ->
  live (Api.se_now env) (cache w !! Api.cache_key q) = None ->
  Api.se_qdrant env Api.search_request (points w) = Replied status (Some (JObj fields)) ->
  has_key "result" fields = false ->
  Api.se_setex env = None ->
  let empty := {| query := q; results := JArr [] |} in
  let w1 := snd (Api.search env q w) in
  let w2 := play_all between w1 in
  fst (Api.search env q w) = Ok empty
  /\ issued (Api.search env q) w
     = [RedisGet (Api.cache_key q); QdrantSearch Api.search_request;
        RedisSetex (Api.cache_key q) 300 empty]
  /\ cache w1 !! Api.cache_key q = Some (empty, Api.se_now env + 300)
  /\ (Api.se_get env2 = None ->
      Forall (keeps_entry q (Api.se_now env + 300)) between ->
      Api.se_now env2 < Api.se_now env + 300 ->
      fst (Api.search env2 q w2) = Ok empty
      /\ issued (Api.search env2 q) w2 = [RedisGet (Api.cache_key q)]
      /\ existsb is_vector_index_call (issued (Api.search env2 q) w2) = false).
Proof.
  intros Hget Hlive Hreply Hnokey Hsetex empty w1 w2.
  destruct (search_miss env q w status fields Hget Hlive Hreply) as (Hcalls & Hout & Hcache).
  rewrite Hsetex, (dict_get_absent _ _ _ Hnokey) in Hout, Hcache.
  rewrite (dict_get_absent _ _ _ Hnokey) in Hcalls.
  assert (Hentry : cache w1 !! Api.cache_key q = Some (empty, Api.se_now env + 300))
    by (subst w1; rewrite Hcache; apply lookup_insert_eq).
  split_and!; [exact Hout | exact Hcalls | exact Hentry |].
  intros Hget2 Hbetween Hlt.
  assert (Hlive2 : live (Api.se_now env2) (cache w2 !! Api.cache_key q) = Some empty).
  { subst w2. rewrite (entry_kept between w1 q empty _ Hbetween Hentry).
    apply live_entry. exact Hlt. }
  rewrite (search_hit env2 q w2 empty Hget2 Hlive2).
  rewrite (hit_issues_get_only env2 q w2 empty Hget2 Hlive2). split_and!; reflexivity.
Qed.

Lemma C9_error_response_cached_as_empty_witness :
  fst (Api.search (index_answers 0 404 error_body) "emissions" empty_world)
  = Ok {| query := "emissions"; results := JArr [] |}
  /\ fst (Api.search (index_answers 299 200 sample_body) "emissions"
            (@play_all sample_externals
               [SearchAsks (index_answers 10 200 sample_body) "emissions";
                Serve (Upload (fine_upload 10 "d1") sample_file)]
               (snd (Api.search (index_answers 0 404 error_body) "emissions" empty_world))))
     = Ok {| query := "emissions"; results := JArr [] |}.
Proof.
  destruct (@C9_error_response_cached_as_empty sample_externals
              (index_answers 0 404 error_body) (index_answers 299 200 sample_body)
              "emissions" empty_world 404
              [("status", JObj [("error", JStr "Not found: Collection `documents` doesn't exist!")]);
               ("time", JNum 0)]
              [SearchAsks (index_answers 10 200 sample_body) "emissions";
               Serve (Upload (fine_upload 10 "d1") sample_file)]
              eq_refl eq_refl eq_refl eq_refl eq_refl)
    as (Hfirst & _ & _ & Hsecond).
  split; [exact Hfirst|]. apply Hsecond; [reflexivity | repeat constructor | reflexivity].
Defined.

(** C9, the claim as stated fails: two searches for [emissions] miss the
    cache while both are in flight; the first is resumed at 2 with an
    error response and caches the empty result, which a search at 3
    returns from the cache; the second is resumed at 4 with a proper
    answer and overwrites the entry, so the search at 5, within 300 units
    of the empty result being cached, does not return the empty result. *)
Lemma C9_empty_entry_overwritten :
  fst (Api.search_after_await (index_answers 2 404 error_body) "emissions" both_asked)
  = Ok {| query := "emissions"; results := JArr [] |}
  /\ cache (first_resumed (404, error_body)) !! "search:emissions"
     = Some ({| query := "emissions"; results := JArr [] |}, 302)
  /\ fst (Api.search (index_down 3) "emissions" (first_resumed (404, error_body)))
     = Ok {| query := "emissions"; results := JArr [] |}
  /\ fst (Api.search_after_await (index_answers 4 200 sample_body) "emissions"
            (snd (Api.search (index_down 3) "emissions" (first_resumed (404, error_body)))))
     = Ok {| query := "emissions"; results := sample_hits |}
  /\ fst (Api.search (index_down 5) "emissions"
            (second_resumed (404, error_body) (200, sample_body)))
     = Ok {| query := "emissions"; results := sample_hits |}
  /\ sample_hits <> JArr [].
Proof. vm_compute. repeat split. discriminate. Qed.

(** ** Status *)

(** C8: [status] never raises and always issues its four probes, in
    order, whichever of them fail; its report has exactly the five
    services, and the entry of each is determined by the outcome of its
    own probe alone. *)
Theorem C8_status_probes_are_isolated (env : Api.StatusEnv) (w : World) :
  exists report,
    fst (Api.status env w) = Ok report
    /\ issued (Api.status env) w = [PgFetchval; QdrantHealth; S3ListBuckets; RedisPing]
    /\ Api.status_field report = "operational"
    /\ Api.services report !! "nats" = Some (connection (Api.st_nc env))
    /\ Api.services report !! "postgresql" = Some (health (Api.st_pg env))
    /\ Api.services report !! "qdrant" = Some (health (Api.st_qdrant env))
    /\ Api.services report !! "storage" = Some (health (Api.st_s3 env))
    /\ Api.services report !! "cache" = Some (health (Api.st_redis env))
    /\ dom (Api.services report)
       = list_to_set ["nats"; "postgresql"; "qdrant"; "storage"; "cache"].
Proof.
  unfold Api.status, Api.probe, Api.nc_connected, connection, health.
  destruct (Api.st_nc env) as [[|]|].
  all: crunch; trace_tail; eexists; split_and!; try reflexivity.
  all: vm_compute; reflexivity.
Qed.

(** * Further properties of the two programs *)

(** ** Listing *)

#[local] Instance not_older_total : Total not_older.
Proof. intros a b. unfold not_older. lia. Qed.

#[local] Instance not_older_trans : Transitive not_older.
Proof. intros a b c. unfold not_older. lia. Qed.

Lemma pg_recent_spec (n : nat) (d : gmap string Row) :
  length (pg_recent n d) = min n (size d)
  /\ StronglySorted not_older (pg_recent n d)
  /\ NoDup (fst <$> pg_recent n d)
  /\ (forall e, e ∈ pg_recent n d -> d !! fst e = Some (snd e))
  /\ (forall id r, d !! id = Some r -> id ∉ (fst <$> pg_recent n d) ->
        forall e, e ∈ pg_recent n d -> not_older e (id, r)).
Proof.
  unfold pg_recent.
  set (sorted := merge_sort not_older (map_to_list d)).
  assert (Hperm : sorted ≡ₚ map_to_list d) by apply merge_sort_Permutation.
  assert (Hsorted : StronglySorted not_older (take n sorted ++ drop n sorted))
    by (rewrite take_drop; apply StronglySorted_merge_sort; apply _).
  split_and!.
  - rewrite length_take, Hperm, length_map_to_list. reflexivity.
  - eapply StronglySorted_app_1_l, Hsorted.
  - rewrite fmap_take. eapply sublist_NoDup; [|apply sublist_take].
    rewrite Hperm. apply NoDup_fst_map_to_list.
  - intros [id r] Hin%subseteq_take. apply elem_of_map_to_list. rewrite <- Hperm. exact Hin.
  - intros id r Hrow Hnot e He.
    assert (Hin : (id, r) ∈ take n sorted ++ drop n sorted)
      by (rewrite take_drop, Hperm; apply elem_of_map_to_list; exact Hrow).
    apply elem_of_app in Hin as [Hin|Hin].
    + exfalso. apply Hnot. apply (list_elem_of_fmap_2 fst) in Hin. exact Hin.
    + exact (StronglySorted_app_1_elem_of _ _ _ _ _ Hsorted He Hin).
Qed.

(** X1: [list_documents] changes nothing and, when the query succeeds,
    returns the ten most recent rows or all of them when there are fewer,
    newest first, each id once, each entry showing the id, filename,
    upload date and processed flag of the stored row; every row left out
    is not newer than any row listed.  When the query fails the exception
    is raised as it is. *)
Theorem X1_list_documents_newest_first (w : World) :
  (forall e, Api.list_documents (Some e) w = (Raise e, w))
  /\ exists views,
       Api.list_documents None w = (Ok views, w)
       /\ length views = min 10 (size (docs w))
       /\ StronglySorted (fun a b => dv_upload_date b <= dv_upload_date a) views
       /\ NoDup (dv_id <$> views)
       /\ (forall v, v ∈ views ->
             exists r, docs w !! dv_id v = Some r /\ v = view_of (dv_id v, r))
       /\ (forall id r, docs w !! id = Some r -> id ∉ (dv_id <$> views) ->
             forall v, v ∈ views -> upload_date r <= dv_upload_date v).
Proof.
  split; [reflexivity|].
  destruct (pg_recent_spec 10 (docs w)) as (Hlen & Hsorted & Hnodup & Hsound & Hrest).
  exists (view_of <$> pg_recent 10 (docs w)). split_and!.
  - reflexivity.
  - rewrite length_fmap. exact Hlen.
  - eapply StronglySorted_fmap; [|exact Hsorted]. intros a b Hab. exact Hab.
  - rewrite <- list_fmap_compose. exact Hnodup.
  - intros v (e & -> & He)%list_elem_of_fmap. exists (snd e).
    split; [apply Hsound, He | destruct e; reflexivity].
  - intros id r Hrow Hnot v (e & -> & He)%list_elem_of_fmap.
    apply (Hrest id r Hrow); [|exact He].
    rewrite <- list_fmap_compose in Hnot. exact Hnot.
Qed.

(** ** Uploads *)

Lemma upload_ok (env : Api.UploadEnv) (file : UploadFile) (w : World) (resp : UploadResponse) :
  fst (Api.upload_document env file w) = Ok resp ->
  let w' := snd (Api.upload_document env file w) in
  resp = {| up_id := Api.up_uuid env; up_status := "queued" |}
  /\ docs w !! Api.up_uuid env = None
  /\ blobs w' = <[Api.object_key (Api.up_uuid env) := file_body file]> (blobs w)
  /\ docs w' = <[Api.up_uuid env := new_row (Api.up_now env) (slice_to 255 (file_name file))]> (docs w)
  /\ queue w' = queue w ++ [("document.process",
                             {| ev_id := Api.up_uuid env; ev_filename := file_name file |})]
  /\ points w' = points w
  /\ cache w' = cache w.
Proof.
  unfold Api.upload_document. crunch; try discriminate.
  intros [= <-]. split_and!; reflexivity.
Qed.

(** X2: after an upload that returned, made at a time later than the
    upload date of every stored row, [list_documents] shows the new
    document first, with its filename as the column stores it (cut to 255
    characters), its upload time and not yet processed. *)
Theorem X2_upload_is_listed_first
    (env : Api.UploadEnv) (file : UploadFile) (w : World) (resp : UploadResponse) :
  fst (Api.upload_document env file w) = Ok resp ->
  (forall id r, docs w !! id = Some r -> upload_date r < Api.up_now env) ->
  exists rest,
    fst (Api.list_documents None (snd (Api.upload_document env file w)))
    = Ok (fresh_view env file :: rest)
    /\ dv_id (fresh_view env file) = up_id resp.
Proof.
  intros Hok Hlater.
  destruct (upload_ok env file w resp Hok) as (-> & Hfree & _ & Hdocs & _).
  cbv zeta in Hdocs.
  set (fresh := new_row (Api.up_now env) (slice_to 255 (file_name file))) in *.
  unfold Api.list_documents, pg_fetch_recent. autounfold with req_ops. simp.
  rewrite Hdocs.
  destruct (pg_recent_spec 10 (<[Api.up_uuid env := fresh]> (docs w)))
    as (Hlen & Hsorted & _ & Hsound & Hrest).
  rewrite (map_size_insert_None _ _ _ Hfree) in Hlen.
  destruct (pg_recent 10 (<[Api.up_uuid env := fresh]> (docs w))) as [|[id r] rest] eqn:Hrows;
    [discriminate|].
  exists (view_of <$> rest). split; [|reflexivity]. do 2 f_equal.
  pose proof (Hsound (id, r) ltac:(left)) as Hhead. cbn in Hhead.
  destruct (decide (Api.up_uuid env = id)) as [<-|Hne].
  - rewrite lookup_insert_eq in Hhead. injection Hhead as <-. reflexivity.
  - exfalso. rewrite lookup_insert_ne in Hhead by exact Hne.
    pose proof (Hlater id r Hhead) as Hold.
    assert (Hnew : <[Api.up_uuid env := fresh]> (docs w) !! Api.up_uuid env = Some fresh)
      by apply lookup_insert_eq.
    destruct (decide (Api.up_uuid env ∈ fst <$> (id, r) :: rest)) as [Hin|Hout].
    + apply list_elem_of_fmap in Hin as ([id' r'] & Hid & Hin). cbn in Hid. subst id'.
      pose proof (Hsound _ Hin) as Hr'. cbn in Hr'. rewrite Hnew in Hr'.
      injection Hr' as <-.
      apply elem_of_cons in Hin as [[= Heq _]|Hin]; [congruence|].
      apply StronglySorted_cons in Hsorted as [Hall _].
      rewrite Forall_forall in Hall. specialize (Hall _ Hin).
      unfold not_older in Hall. cbn in Hall. lia.
    + specialize (Hrest _ _ Hnew Hout (id, r) ltac:(left)).
      unfold not_older in Hrest. cbn in Hrest. lia.
Qed.

Lemma X2_upload_is_listed_first_witness :
  exists rest,
    fst (Api.list_documents None
           (snd (Api.upload_document (fine_upload 20 "d2") sample_file uploaded_world)))
    = Ok ({| dv_id := "d2"; dv_filename := "a.pdf"; dv_upload_date := 20;
             dv_processed := false |} :: rest).
Proof.
  destruct (X2_upload_is_listed_first (fine_upload 20 "d2") sample_file uploaded_world
              {| up_id := "d2"; up_status := "queued" |} eq_refl) as (rest & Hlist & _).
  - intros id r.
    change (docs uploaded_world) with (<["d1" := new_row 10 "a.pdf"]> (∅ : gmap string Row)).
    intros [[_ <-]|[_ Hempty]]%lookup_insert_Some; [reflexivity|].
    rewrite lookup_empty in Hempty. discriminate.
  - exists rest. exact Hlist.
Defined.

Lemma short_name_fits (n : nat) (s : string) :
  (n <? String.length s)%nat = false ->
  varchar_fits n s = true /\ slice_to n s = s.
Proof.
  intros Hlen%Nat.ltb_ge. unfold varchar_fits, slice_to.
  revert s Hlen. induction n as [|n IH]; intros [|c s] Hlen; cbn in *;
    try (split; reflexivity); try lia.
  destruct (IH s ltac:(lia)) as [Hfit Hcut]. split; [exact Hfit | f_equal; exact Hcut].
Qed.

(** X3: for a filename without NUL, an upload returns normally exactly
    when no client call fails, the filename has nothing but spaces beyond
    its 255th character and the id drawn is free; it then answers with
    that id and [queued], has stored the bytes, has created the row
    Pending with the filename cut to 255 characters, the time and no
    preview, and has appended the event, with the filename in full, to the
    queue, leaving index and cache alone. *)
Theorem X3_upload_success (env : Api.UploadEnv) (file : UploadFile) (w : World) :
  has_nul (file_name file) = false ->
  let id := Api.up_uuid env in
  let out := Api.upload_document env file w in
  let w' := snd out in
  (raised (fst out) = false <->
     Api.up_s3 env = None /\ Api.up_pg env = None /\ Api.up_nats env = None
     /\ varchar_fits 255 (file_name file) = true
     /\ docs w !! id = None)
  /\ (raised (fst out) = false ->
        fst out = Ok {| up_id := id; up_status := "queued" |}
        /\ blobs w' !! Api.object_key id = Some (file_body file)
        /\ docs w' !! id
           = Some {| filename := slice_to 255 (file_name file);
                     upload_date := Api.up_now env;
                     processed := false; text_preview := None |}
        /\ processing_state_of w' id = Some Pending
        /\ queue w' = queue w ++ [("document.process",
                                   {| ev_id := id; ev_filename := file_name file |})]
        /\ points w' = points w
        /\ cache w' = cache w).
Proof.
  intros _. cbv zeta. unfold processing_state_of, Api.upload_document.
  crunch.
  all: split; [split|].
  all: try discriminate.
  all: try (intros (? & ? & ? & ? & ?); congruence).
  - intros _. split_and!; reflexivity.
  - intros _. rewrite !lookup_insert_eq. split_and!; reflexivity.
Qed.

Lemma X3_upload_success_witness :
  fst (Api.upload_document (fine_upload 10 "d1") padded_file empty_world)
  = Ok {| up_id := "d1"; up_status := "queued" |}
  /\ String.length padded_name = 256%nat
  /\ docs (snd (Api.upload_document (fine_upload 10 "d1") padded_file empty_world)) !! "d1"
     = Some {| filename := padded_name_stored; upload_date := 10;
               processed := false; text_preview := None |}
  /\ queue (snd (Api.upload_document (fine_upload 10 "d1") padded_file empty_world))
     = [("document.process", {| ev_id := "d1"; ev_filename := padded_name |})].
Proof.
  destruct (X3_upload_success (fine_upload 10 "d1") padded_file empty_world eq_refl)
    as [Hiff Hpost].
  destruct (Hpost (proj2 Hiff (conj eq_refl (conj eq_refl (conj eq_refl
                                 (conj eq_refl eq_refl))))))
    as (Hok & _ & Hrow & _ & Hqueue & _).
  split_and!; [exact Hok | reflexivity | exact Hrow | exact Hqueue].
Defined.

(** X4: when only the publish fails, the upload raises that error after
    the blob and the row have been written: both stay, the row Pending,
    and no event for the document is queued. *)
Theorem X4_publish_failure_leaves_pending_row
    (env : Api.UploadEnv) (file : UploadFile) (w : World) (e : exn) :
  Api.up_s3 env = None ->
  Api.up_pg env = None ->
  (255 <? String.length (file_name file))%nat = false ->
  docs w !! Api.up_uuid env = None ->
  Api.up_nats env = Some e ->
  let w' := snd (Api.upload_document env file w) in
  fst (Api.upload_document env file w) = Raise e
  /\ blobs w' !! Api.object_key (Api.up_uuid env) = Some (file_body file)
  /\ processing_state_of w' (Api.up_uuid env) = Some Pending
  /\ queue w' = queue w.
Proof.
  intros Hs3 Hpg Hlen Hfree Hnats. unfold processing_state_of, Api.upload_document.
  autounfold with req_ops. simp. rewrite Hs3. simp. rewrite Hpg. simp.
  destruct (short_name_fits 255 _ Hlen) as [-> _]. rewrite Hfree. simp.
  rewrite Hnats. simp.
  rewrite !lookup_insert_eq. split_and!; reflexivity.
Qed.

Lemma X4_publish_failure_leaves_pending_row_witness :
  fst (Api.upload_document (publish_down 10 "d1") sample_file empty_world)
  = Raise NatsUnavailable
  /\ processing_state_of
       (snd (Api.upload_document (publish_down 10 "d1") sample_file empty_world)) "d1"
     = Some Pending
  /\ queue (snd (Api.upload_document (publish_down 10 "d1") sample_file empty_world)) = [].
Proof.
  destruct (X4_publish_failure_leaves_pending_row (publish_down 10 "d1") sample_file
              empty_world NatsUnavailable eq_refl eq_refl eq_refl eq_refl eq_refl)
    as (Hraise & _ & Hstate & Hqueue).
  split_and!; [exact Hraise | exact Hstate | exact Hqueue].
Defined.

(** X5: an upload touches the blob and the row of the id it drew only:
    every other blob key and every other row is as before, a row that
    already has the id is not altered, index and cache are untouched, and
    the queue only grows at its end. *)
Theorem X5_upload_touches_own_id_only
    (env : Api.UploadEnv) (file : UploadFile) (w : World) :
  let w' := snd (Api.upload_document env file w) in
  (forall key, key <> Api.object_key (Api.up_uuid env) -> blobs w' !! key = blobs w !! key)
  /\ (forall id, id <> Api.up_uuid env -> docs w' !! id = docs w !! id)
  /\ (forall r, docs w !! Api.up_uuid env = Some r -> docs w' = docs w)
  /\ points w' = points w
  /\ cache w' = cache w
  /\ queue w `prefix_of` queue w'.
Proof.
  cbv zeta. unfold Api.upload_document. crunch; split_and!; intros; try reflexivity.
  all: try (rewrite lookup_insert_ne by congruence; reflexivity).
  all: try congruence.
  all: try (apply prefix_app_r; reflexivity).
Qed.

(** ** Searches *)

(** X6: on a miss, when the request to the Vector Index fails, or its
    body is not JSON, or is JSON but not a dict, [search] raises the
    corresponding exception without writing to the cache, so nothing is
    remembered of the failure and the next search asks again. *)
Theorem X6_search_failure_is_not_cached
    (env : Api.SearchEnv) (q : string) (w : World) (e : exn) :
  Api.se_get env = None ->
  live (Api.se_now env) (cache w !! Api.cache_key q) = None ->
  reply_failure (Api.se_qdrant env Api.search_request (points w)) = Some e ->
  Api.search env q w
  = (Raise e,
     set_trace (fun t => t ++ [RedisGet (Api.cache_key q); QdrantSearch Api.search_request]) w)
  /\ issued (Api.search env q) w
     = [RedisGet (Api.cache_key q); QdrantSearch Api.search_request]
  /\ cache (snd (Api.search env q w)) = cache w.
Proof.
  intros Hget Hlive Hfail. unfold issued, Api.search. autounfold with req_ops. simp.
  rewrite Hget. simp. rewrite Hlive. simp.
  destruct (Api.se_qdrant env Api.search_request (points w)) as [status [body|]|e'];
    simp; [destruct body; simp | |]; try discriminate.
  all: injection Hfail as <-; trace_tail.
  all: split_and!; try reflexivity.
  all: unfold set_trace; cbn; rewrite <- app_assoc; reflexivity.
Qed.

Lemma X6_search_failure_is_not_cached_witness :
  fst (Api.search (index_down 0) "emissions" empty_world) = Raise HttpTransport
  /\ fst (Api.search (index_answers_garbage 0) "emissions" empty_world) = Raise JsonDecodeError
  /\ fst (Api.search (index_answers 0 200 sample_hits) "emissions" empty_world)
     = Raise AttributeError
  /\ cache (snd (Api.search (index_answers 0 200 sample_hits) "emissions" empty_world)) = ∅.
Proof.
  split_and!.
  - exact (f_equal fst (proj1 (X6_search_failure_is_not_cached (index_down 0) "emissions"
                                 empty_world HttpTransport eq_refl eq_refl eq_refl))).
  - exact (f_equal fst (proj1 (X6_search_failure_is_not_cached (index_answers_garbage 0)
                                 "emissions" empty_world JsonDecodeError
                                 eq_refl eq_refl eq_refl))).
  - exact (f_equal fst (proj1 (X6_search_failure_is_not_cached
                                 (index_answers 0 200 sample_hits) "emissions"
                                 empty_world AttributeError eq_refl eq_refl eq_refl))).
  - exact (proj2 (proj2 (X6_search_failure_is_not_cached
                           (index_answers 0 200 sample_hits) "emissions"
                           empty_world AttributeError eq_refl eq_refl eq_refl))).
Defined.

(** X7: [search] writes to the cache entry of its own query only: blobs,
    rows, index and queue are as before, and so is the cache entry of
    every other query, however close in spelling. *)
Theorem X7_search_writes_own_entry_only
    (env : Api.SearchEnv) (q : string) (w : World) :
  let w' := snd (Api.search env q w) in
  blobs w' = blobs w
  /\ docs w' = docs w
  /\ points w' = points w
  /\ queue w' = queue w
  /\ (forall q', q' <> q ->
        cache w' !! Api.cache_key q' = cache w !! Api.cache_key q').
Proof.
  cbv zeta. destruct (search_frame env q w) as (Hb & Hq & Hp).
  split_and!; [exact Hb | apply docs_after_search | exact Hp | exact Hq |].
  intros q' Hne.
  destruct (cache_after_search env q w) as [->|(_ & r & ->)]; [reflexivity|].
  apply lookup_insert_ne. intros Heq. apply Hne. symmetry. exact (cache_key_inj _ _ Heq).
Qed.

Lemma expired_entry (now expiry : Z) (r : SearchResult) :
  expiry <= now -> live now (Some (r, expiry)) = None.
Proof. intros Hle. unfold live. rewrite (proj2 (Z.ltb_ge _ _) Hle). reflexivity. Qed.

(** X8: a hit leaves the entry and its expiry as they are, so reading
    does not prolong an entry; from its expiry on the entry is ignored:
    the search asks the Vector Index and replaces the entry by the new
    result, which expires 300 units later. *)
Theorem X8_entry_expires_and_is_replaced
    (env : Api.SearchEnv) (q : string) (w : World) (old : SearchResult) (expiry : Z) :
  Api.se_get env = None ->
  cache w !! Api.cache_key q = Some (old, expiry) ->
  let out := Api.search env q w in
  (Api.se_now env < expiry -> fst out = Ok old /\ cache (snd out) = cache w)
  /\ (expiry <= Api.se_now env ->
      forall status fields,
        Api.se_qdrant env Api.search_request (points w)
        = Replied status (Some (JObj fields)) ->
        Api.se_setex env = None ->
        let fresh := {| query := q; results := dict_get "result" fields (JArr []) |} in
        fst out = Ok fresh
        /\ issued (Api.search env q) w
           = [RedisGet (Api.cache_key q); QdrantSearch Api.search_request;
              RedisSetex (Api.cache_key q) 300 fresh]
        /\ cache (snd out) !! Api.cache_key q = Some (fresh, Api.se_now env + 300)).
Proof.
  intros Hget Hentry out. subst out. split.
  - intros Hlt.
    assert (Hlive : live (Api.se_now env) (cache w !! Api.cache_key q) = Some old)
      by (rewrite Hentry; apply live_entry; exact Hlt).
    rewrite (search_hit env q w old Hget Hlive). split; reflexivity.
  - intros Hle status fields Hreply Hsetex fresh.
    assert (Hlive : live (Api.se_now env) (cache w !! Api.cache_key q) = None)
      by (rewrite Hentry; apply expired_entry; exact Hle).
    destruct (search_miss env q w status fields Hget Hlive Hreply) as (Hcalls & Hout & Hcache).
    rewrite Hsetex in Hout, Hcache.
    split_and!; [exact Hout | exact Hcalls |]. rewrite Hcache. apply lookup_insert_eq.
Qed.

Lemma X8_entry_expires_and_is_replaced_witness :
  fst (Api.search (index_answers 300 404 error_body) "emissions"
         (snd (Api.search (index_answers 0 200 sample_body) "emissions" empty_world)))
  = Ok {| query := "emissions"; results := JArr [] |}.
Proof.
  destruct (X8_entry_expires_and_is_replaced (index_answers 300 404 error_body) "emissions"
              (snd (Api.search (index_answers 0 200 sample_body) "emissions" empty_world))
              {| query := "emissions"; results := sample_hits |} 300 eq_refl eq_refl)
    as [_ Hexpired].
  refine (proj1 (Hexpired _ 404
            [("status", JObj [("error", JStr "Not found: Collection `documents` doesn't exist!")]);
             ("time", JNum 0)] eq_refl eq_refl)).
  cbn. lia.
Defined.

(** ** Status *)

(** X9: [status] only probes: whatever the probes answer, blobs, rows,
    index, cache and queue are as before. *)
Theorem X9_status_changes_nothing (env : Api.StatusEnv) (w : World) :
  let w' := snd (Api.status env w) in
  blobs w' = blobs w /\ docs w' = docs w /\ points w' = points w
  /\ cache w' = cache w /\ queue w' = queue w.
Proof.
  cbv zeta. destruct (status_frame env w) as (Hb & Hq & Hc & Hp).
  split_and!; [exact Hb | apply docs_after_status | exact Hp | exact Hc | exact Hq].
Qed.

(** ** Deliveries *)

Lemma delivery_stores `{Externals} (env : Processor.ProcessEnv) (msg : Event) (w : World) :
  let w' := snd (Processor.process_document env msg w) in
  blobs w' = blobs w
  /\ points w' = match delivered_point env msg (blobs w) with
                 | Some p => upsert p (points w)
                 | None => points w
                 end
  /\ docs w' = match delivered_preview env msg (blobs w) with
               | Some preview => alter (mark_processed preview) (ev_id msg) (docs w)
               | None => docs w
               end.
Proof.
  unfold delivered_point, delivered_preview, Processor.process_document.
  crunch; split_and!; reflexivity.
Qed.

Lemma entries_upsert_other (p : Point) (idx : list Point) (id : string) :
  id <> pt_id p -> entries id (upsert p idx) = entries id idx.
Proof.
  intros Hne. unfold entries, upsert. rewrite filter_app.
  rewrite (filter_none _ [p]).
  - rewrite app_nil_r. apply list_filter_filter_l. congruence.
  - intros q ->%list_elem_of_singleton Heq. apply Hne. symmetry. exact Heq.
Qed.

Lemma substring_length_le (n : nat) (s : string) :
  (String.length (String.substring 0 n s) <= n)%nat.
Proof.
  revert s. induction n as [|n IH]; intros [|c s]; cbn; try lia.
  specialize (IH s). lia.
Qed.

Lemma substring_substring (n m : nat) (s : string) :
  (n <= m)%nat ->
  String.substring 0 n (String.substring 0 m s) = String.substring 0 n s.
Proof.
  revert m s. induction n as [|n IH]; intros m s Hle.
  - destruct (String.substring 0 m s), s; reflexivity.
  - destruct m as [|m]; [lia|]. destruct s as [|c s]; cbn; [reflexivity|].
    f_equal. apply IH. lia.
Qed.

(** X10: a delivery leaves blobs, queue and cache alone and touches the
    row and the index entries of its own id only; it creates and deletes
    no row, and in the row it changes it keeps filename and upload date
    and never clears the processed flag. *)
Theorem X10_delivery_touches_own_id_only
    `{Externals} (env : Processor.ProcessEnv) (msg : Event) (w : World) :
  let w' := snd (Processor.process_document env msg w) in
  blobs w' = blobs w /\ queue w' = queue w /\ cache w' = cache w
  /\ (forall id, id <> ev_id msg ->
        docs w' !! id = docs w !! id
        /\ entries id (points w') = entries id (points w))
  /\ dom (docs w') = dom (docs w)
  /\ (forall r r', docs w !! ev_id msg = Some r -> docs w' !! ev_id msg = Some r' ->
        filename r' = filename r /\ upload_date r' = upload_date r
        /\ (processed r = true -> processed r' = true)).
Proof.
  cbv zeta. destruct (delivery_frame env msg w) as (Hb & Hq & Hc & _).
  destruct (delivery_stores env msg w) as (_ & Hp & Hd). cbv zeta in *.
  rewrite Hp, Hd. split_and!; [exact Hb | exact Hq | exact Hc | | |].
  - intros id Hne. split.
    + destruct (delivered_preview env msg (blobs w)); [|reflexivity].
      apply lookup_alter_ne. congruence.
    + destruct (delivered_point env msg (blobs w)) as [p|] eqn:Hpt; [|reflexivity].
      apply entries_upsert_other.
      unfold delivered_point in Hpt. repeat case_match; simplify_eq; exact Hne.
  - destruct (delivered_preview env msg (blobs w)); [|reflexivity].
    apply dom_alter_L.
  - intros r r' Hr. destruct (delivered_preview env msg (blobs w)).
    + rewrite lookup_alter_eq, Hr. intros [= <-]. cbn. tauto.
    + rewrite Hr. intros [= <-]. tauto.
Qed.

(** X11: whatever a delivery sends to the Vector Index and to the
    Metadata Store is derived from the blob of its document: the point has
    the id of the event as id and as [doc_id], the filename of the event,
    the first 500 characters of the decoded blob as text and the embedding
    of that text as vector; the update is for that id and carries the
    first 200 characters of the decoded blob. *)
Theorem X11_delivery_sends_bounded_text
    `{Externals} (env : Processor.ProcessEnv) (msg : Event) (w : World) (c : effect) :
  c ∈ issued (Processor.process_document env msg) w ->
  well_formed_call msg w c.
Proof.
  assert (Hpre : forall content,
             slice_to 200 (slice_to 500 (decode_ignore content))
             = slice_to 200 (decode_ignore content))
    by (intros content; apply substring_substring; lia).
  unfold Processor.process_document.
  crunch; trace_tail; intros Hin.
  all: repeat (apply elem_of_cons in Hin as [->|Hin]); try (inversion Hin; fail).
  all: cbn; try exact I.
  all: eexists; split_and!; try eassumption; try reflexivity; try apply Hpre.
  all: apply substring_length_le.
Qed.

Lemma X11_delivery_sends_bounded_text_witness :
  @well_formed_call sample_externals sample_event uploaded_world
    (PgUpdate (@preview_of sample_externals (file_body sample_file)) "d1").
Proof.
  apply (@X11_delivery_sends_bounded_text sample_externals fine_delivery).
  vm_compute. do 4 right. left.
Defined.

Lemma upsert_commute (p q : Point) (idx : list Point) :
  pt_id p <> pt_id q -> upsert p (upsert q idx) ≡ₚ upsert q (upsert p idx).
Proof.
  intros Hne. unfold upsert. rewrite !filter_app, !list_filter_filter.
  rewrite (filter_cons_True _ q) by congruence.
  rewrite (filter_cons_True _ p) by congruence.
  rewrite !filter_nil, <- !app_assoc. cbn [app].
  rewrite (list_filter_iff (fun a => pt_id a <> pt_id p /\ pt_id a <> pt_id q)
             (fun a => pt_id a <> pt_id q /\ pt_id a <> pt_id p)) by tauto.
  apply Permutation_app; [reflexivity | apply Permutation_swap].
Qed.

Lemma delivered_point_id `{Externals} (env : Processor.ProcessEnv) (msg : Event)
    (b : gmap string bytes) (p : Point) :
  delivered_point env msg b = Some p -> pt_id p = ev_id msg.
Proof. unfold delivered_point. intros Hp. repeat case_match; simplify_eq; reflexivity. Qed.

(** X12: deliveries for two different documents can be handled in either
    order, whatever faults each meets: rows, blobs, cache and queue end up
    the same, and the index holds the same points. *)
Theorem X12_deliveries_commute
    `{Externals} (env1 env2 : Processor.ProcessEnv) (msg1 msg2 : Event) (w : World) :
  ev_id msg1 <> ev_id msg2 ->
  let a := exec (Deliver env2 msg2) (exec (Deliver env1 msg1) w) in
  let b := exec (Deliver env1 msg1) (exec (Deliver env2 msg2) w) in
  docs a = docs b
  /\ points a ≡ₚ points b
  /\ blobs a = blobs b /\ cache a = cache b /\ queue a = queue b.
Proof.
  intros Hne a b. subst a b. cbn [exec].
  destruct (delivery_stores env1 msg1 w) as (Hb1 & Hp1 & Hd1).
  destruct (delivery_stores env2 msg2 w) as (Hb2 & Hp2 & Hd2).
  destruct (delivery_stores env2 msg2 (snd (Processor.process_document env1 msg1 w)))
    as (Hb21 & Hp21 & Hd21).
  destruct (delivery_stores env1 msg1 (snd (Processor.process_document env2 msg2 w)))
    as (Hb12 & Hp12 & Hd12).
  destruct (delivery_frame env1 msg1 w) as (_ & Hq1 & Hc1 & _).
  destruct (delivery_frame env2 msg2 w) as (_ & Hq2 & Hc2 & _).
  destruct (delivery_frame env2 msg2 (snd (Processor.process_document env1 msg1 w)))
    as (_ & Hq21 & Hc21 & _).
  destruct (delivery_frame env1 msg1 (snd (Processor.process_document env2 msg2 w)))
    as (_ & Hq12 & Hc12 & _).
  cbv zeta in *.
  rewrite Hb1 in Hp21, Hd21. rewrite Hb2 in Hp12, Hd12.
  rewrite Hp21, Hd21, Hp12, Hd12, Hp1, Hd1, Hp2, Hd2.
  rewrite Hb21, Hb12, Hb1, Hb2, Hc21, Hc12, Hc1, Hc2, Hq21, Hq12, Hq1, Hq2.
  split_and!; try reflexivity.
  - destruct (delivered_preview env1 msg1 (blobs w)), (delivered_preview env2 msg2 (blobs w));
      try reflexivity.
    apply alter_alter_ne. congruence.
  - destruct (delivered_point env1 msg1 (blobs w)) as [p1|] eqn:H1,
             (delivered_point env2 msg2 (blobs w)) as [p2|] eqn:H2; try reflexivity.
    apply upsert_commute.
    rewrite (delivered_point_id _ _ _ _ H1), (delivered_point_id _ _ _ _ H2). congruence.
Qed.

Lemma X12_deliveries_commute_witness :
  points (@exec sample_externals (Deliver fine_delivery second_event)
            (@exec sample_externals (Deliver update_down sample_event) two_uploads_world))
  ≡ₚ points (@exec sample_externals (Deliver update_down sample_event)
               (@exec sample_externals (Deliver fine_delivery second_event)
                  two_uploads_world)).
Proof.
  refine (proj1 (proj2 (@X12_deliveries_commute sample_externals update_down fine_delivery
                          sample_event second_event two_uploads_world _))).
  discriminate.
Defined.

(** X13: index and rows can disagree after a delivery.  When the index
    has accepted the upsert and the update then fails, the delivery raises
    with the point stored and the rows as they were; when no row has the
    id, the update changes nothing and the delivery still returns
    normally, leaving a point without a row. *)
Theorem X13_point_without_processed_row
    `{Externals} (env : Processor.ProcessEnv) (msg : Event) (w : World)
    (content : bytes) (status : Z) :
  Processor.pr_connect env = None ->
  Processor.pr_s3 env = None ->
  blobs w !! Processor.object_key (ev_id msg) = Some content ->
  Processor.pr_qdrant env = Replied status tt ->
  is_success status = true ->
  let out := Processor.process_document env msg w in
  entries (ev_id msg) (points (snd out)) = [point_of msg content]
  /\ (forall e, Processor.pr_update env = Some e ->
        fst out = Raise e /\ docs (snd out) = docs w)
  /\ (Processor.pr_update env = None -> docs w !! ev_id msg = None ->
        fst out = Ok tt /\ docs (snd out) = docs w).
Proof.
  intros Hconnect Hs3 Hblob Hreply Hstatus.
  unfold Processor.process_document. autounfold with req_ops. simp.
  rewrite Hconnect. simp. rewrite Hs3. simp. rewrite Hblob. simp.
  rewrite Hreply. simp. rewrite Hstatus. simp.
  destruct (Processor.pr_update env) as [e|]; simp; split_and!.
  - apply (entries_upsert (point_of msg content)).
  - intros e' [= <-]. split; reflexivity.
  - discriminate.
  - apply (entries_upsert (point_of msg content)).
  - discriminate.
  - intros _ Hnone. split; [reflexivity|]. apply alter_id'. exact Hnone.
Qed.

Lemma X13_point_without_processed_row_witness :
  fst (@Processor.process_document sample_externals update_down sample_event uploaded_world)
  = Raise PgUnavailable
  /\ processing_state_of
       (@exec sample_externals (Deliver update_down sample_event) uploaded_world) "d1"
     = Some Pending
  /\ length (entries "d1"
       (points (@exec sample_externals (Deliver update_down sample_event) uploaded_world)))
     = 1%nat.
Proof.
  destruct (@X13_point_without_processed_row sample_externals update_down sample_event
              uploaded_world (file_body sample_file) 200
              eq_refl eq_refl eq_refl eq_refl eq_refl) as (Hentry & Hfail & _).
  destruct (Hfail PgUnavailable eq_refl) as [Hraise Hdocs].
  split_and!.
  - exact Hraise.
  - unfold processing_state_of. cbn [exec]. rewrite Hdocs. reflexivity.
  - exact (f_equal length Hentry).
Defined.

(** ** Invariants of the reachable worlds *)

Lemma reachable_invariant `{Externals} (P : World -> Prop) :
  P empty_world ->
  (forall a w, P w -> P (exec a w)) ->
  forall w, reachable w -> P w.
Proof.
  intros Hempty Hstep w [l ->].
  assert (Hall : forall w0, P w0 -> P (exec_all l w0)).
  { induction l as [|a l IH]; intros w0 Hw0; [exact Hw0|]. cbn. apply IH, Hstep, Hw0. }
  apply Hall, Hempty.
Qed.

Lemma delivered_preview_inv `{Externals} (env : Processor.ProcessEnv) (msg : Event)
    (b : gmap string bytes) (preview : string) :
  delivered_preview env msg b = Some preview ->
  exists content, b !! Processor.object_key (ev_id msg) = Some content
                  /\ preview = preview_of content.
Proof.
  unfold delivered_preview. intros Hp. repeat case_match; simplify_eq. eauto.
Qed.

Lemma delivered_point_inv `{Externals} (env : Processor.ProcessEnv) (msg : Event)
    (b : gmap string bytes) (p : Point) :
  delivered_point env msg b = Some p ->
  exists content, b !! Processor.object_key (ev_id msg) = Some content
                  /\ p = point_of msg content.
Proof.
  unfold delivered_point. intros Hp. repeat case_match; simplify_eq. eauto.
Qed.

Lemma rows_consistent_step `{Externals} (a : action) (w : World) :
  rows_consistent w -> rows_consistent (exec a w).
Proof.
  intros Hw. destruct a as [env file|env q|env|env msg]; cbn [exec]; unfold rows_consistent.
  - destruct (docs_after_upload env file w) as [->|[_ ->]]; [exact Hw|].
    intros id r [[_ <-]|[_ Hr]]%lookup_insert_Some; [|exact (Hw id r Hr)].
    cbn. split; [|intros ? [=]]. split; [intros [=] | intros [? [=]]].
  - rewrite docs_after_search. exact Hw.
  - rewrite docs_after_status. exact Hw.
  - destruct (delivery_stores env msg w) as (_ & _ & ->).
    destruct (delivered_preview env msg (blobs w)) as [preview|] eqn:Hp; [|exact Hw].
    apply delivered_preview_inv in Hp as (content & _ & ->).
    intros id r. rewrite lookup_alter. case_decide; [subst id|apply Hw].
    destruct (docs w !! ev_id msg) as [r0|]; cbn; [|intros [=]]. intros [= <-]. cbn. split.
    + split; [eauto | reflexivity].
    + intros preview [= <-]. apply substring_length_le.
Qed.

(** X14: in every world the system can reach, a row is processed exactly
    when it has a text preview, and a preview has at most 200
    characters. *)
Theorem X14_processed_rows_have_preview `{Externals} (w : World) :
  reachable w -> rows_consistent w.
Proof.
  apply (reachable_invariant rows_consistent).
  - intros id r Hr. cbn [empty_world docs] in Hr. rewrite lookup_empty in Hr. discriminate.
  - apply rows_consistent_step.
Qed.

Lemma X14_processed_rows_have_preview_witness :
  docs (@exec_all sample_externals
          [Upload (fine_upload 10 "d1") sample_file; Deliver fine_delivery sample_event]
          empty_world) !! "d1"
  = Some {| filename := "a.pdf"; upload_date := 10; processed := true;
            text_preview := Some "0123456789" |}
  /\ (String.length "0123456789" <= 200)%nat.
Proof.
  assert (Hrow : docs (@exec_all sample_externals
                         [Upload (fine_upload 10 "d1") sample_file;
                          Deliver fine_delivery sample_event] empty_world) !! "d1"
                 = Some {| filename := "a.pdf"; upload_date := 10; processed := true;
                           text_preview := Some "0123456789" |})
    by (vm_compute; reflexivity).
  split; [exact Hrow|].
  refine (proj2 (@X14_processed_rows_have_preview sample_externals _ _ "d1" _ Hrow)
            "0123456789" eq_refl).
  eexists. reflexivity.
Defined.

Lemma upload_queue_docs (env : Api.UploadEnv) (file : UploadFile) (w : World) :
  let id := Api.up_uuid env in
  let w' := snd (Api.upload_document env file w) in
  let inserted :=
    <[id := new_row (Api.up_now env) (slice_to 255 (file_name file))]> (docs w) in
  (queue w' = queue w
   /\ (docs w' = docs w \/ (docs w !! id = None /\ docs w' = inserted)))
  \/ (docs w !! id = None /\ docs w' = inserted
      /\ varchar_fits 255 (file_name file) = true
      /\ queue w' = queue w ++ [("document.process",
                                 {| ev_id := id; ev_filename := file_name file |})]).
Proof. unfold Api.upload_document. crunch; auto 6. Qed.

Lemma queued_row_kept (d : gmap string Row) (id : string) (fresh : Row) (ev : Event) :
  d !! id = None ->
  (exists r, d !! ev_id ev = Some r /\ filename r = slice_to 255 (ev_filename ev)) ->
  exists r, <[id := fresh]> d !! ev_id ev = Some r
            /\ filename r = slice_to 255 (ev_filename ev).
Proof.
  intros Hfree (r & Hr & Hname). exists r. split; [|exact Hname].
  rewrite lookup_insert_ne; [exact Hr|]. intros Heq. rewrite <- Heq in Hr. congruence.
Qed.

Lemma queue_consistent_step `{Externals} (a : action) (w : World) :
  queue_consistent w -> queue_consistent (exec a w).
Proof.
  intros [Hnodup Hrows]. destruct a as [env file|env q|env|env msg]; cbn [exec].
  - destruct (upload_queue_docs env file w)
      as [[Hq Hd]|(Hfree & Hd & Hfit & Hq)]; cbv zeta in *; unfold queue_consistent;
      rewrite Hq.
    + split; [exact Hnodup|]. intros subject ev Hin.
      destruct (Hrows subject ev Hin) as (Hsub & Hfits & Hrow). split_and!; [exact Hsub | exact Hfits |].
      destruct Hd as [->|[Hfree ->]]; [exact Hrow|]. apply queued_row_kept; assumption.
    + rewrite Hd. split.
      * rewrite fmap_app. apply NoDup_app. split_and!; [exact Hnodup| |apply NoDup_singleton].
        intros id Hold Hnew. cbn in Hnew. apply list_elem_of_singleton in Hnew.
        apply list_elem_of_fmap in Hold as ([subject ev] & Hid & Hin). cbn in Hid.
        destruct (Hrows subject ev Hin) as (_ & _ & r & Hr & _). congruence.
      * intros subject ev [Hin|[= -> ->]%list_elem_of_singleton]%elem_of_app.
        -- destruct (Hrows subject ev Hin) as (Hsub & Hfits & Hrow).
           split_and!; [exact Hsub | exact Hfits |].
           apply queued_row_kept; assumption.
        -- split_and!; [reflexivity | exact Hfit |]. cbn [ev_id ev_filename].
           rewrite lookup_insert_eq. eauto.
  - destruct (search_frame env q w) as (_ & Hq & _). unfold queue_consistent.
    rewrite Hq, docs_after_search. split; assumption.
  - destruct (status_frame env w) as (_ & Hq & _). unfold queue_consistent.
    rewrite Hq, docs_after_status. split; assumption.
  - destruct (delivery_frame env msg w) as (_ & Hq & _).
    destruct (delivery_stores env msg w) as (_ & _ & Hd). cbv zeta in *.
    unfold queue_consistent. rewrite Hq, Hd. split; [exact Hnodup|].
    intros subject ev Hin.
    destruct (Hrows subject ev Hin) as (Hsub & Hfits & r & Hr & Hname).
    split_and!; [exact Hsub | exact Hfits |].
    destruct (delivered_preview env msg (blobs w)) as [preview|]; [|eauto].
    rewrite lookup_alter. case_decide as Hid; [|eauto].
    rewrite Hid, Hr. eexists. split; [reflexivity | exact Hname].
Qed.

Lemma queue_consistent_reachable `{Externals} (w : World) :
  reachable w -> queue_consistent w.
Proof.
  apply (reachable_invariant queue_consistent).
  - split; [constructor|]. intros subject ev Hin. cbn [empty_world queue] in Hin. inversion Hin.
  - apply queue_consistent_step.
Qed.

(** X15: in every world the system can reach, the queue carries at most
    one event per document id, every event is on the subject
    [document.process], and every event has a row with the event's id
    whose filename is that of the event as the column stores it: cut to
    255 characters, beyond which the event's filename has only spaces. *)
Theorem X15_queued_events_have_rows `{Externals} (w : World) :
  reachable w -> queue_consistent w.
Proof. apply queue_consistent_reachable. Qed.

Lemma X15_queued_events_have_rows_witness :
  exists r,
    docs (@exec_all sample_externals [Upload (fine_upload 10 "d1") padded_file] empty_world)
      !! "d1" = Some r
    /\ filename r = padded_name_stored
    /\ String.length padded_name = 256%nat.
Proof.
  destruct (proj2 (@X15_queued_events_have_rows sample_externals _
                     (ex_intro _ [Upload (fine_upload 10 "d1") padded_file] eq_refl))
              "document.process" {| ev_id := "d1"; ev_filename := padded_name |})
    as (_ & _ & r & Hr & Hname).
  - vm_compute. left.
  - exists r. split_and!; [exact Hr | rewrite Hname; reflexivity | reflexivity].
Defined.

Lemma upload_points (env : Api.UploadEnv) (file : UploadFile) (w : World) :
  points (snd (Api.upload_document env file w)) = points w.
Proof. unfold Api.upload_document. crunch; reflexivity. Qed.

Lemma elem_of_upsert (p q : Point) (idx : list Point) :
  q ∈ upsert p idx -> q = p \/ q ∈ idx.
Proof.
  unfold upsert. intros [Hin|Hin]%elem_of_app.
  - right. apply list_elem_of_filter in Hin. tauto.
  - left. apply list_elem_of_singleton. exact Hin.
Qed.

Lemma NoDup_upsert (p : Point) (idx : list Point) :
  NoDup (pt_id <$> idx) -> NoDup (pt_id <$> upsert p idx).
Proof.
  intros Hnodup. unfold upsert. rewrite fmap_app. apply NoDup_app. split_and!.
  - induction idx as [|q idx IH]; [constructor|].
    apply NoDup_cons in Hnodup as [Hq Hrest].
    destruct (decide (pt_id q <> pt_id p)) as [Hne|Heq].
    + rewrite filter_cons_True by exact Hne. cbn. apply NoDup_cons. split; [|apply IH, Hrest].
      intros (q' & Hid & Hin%list_elem_of_filter)%list_elem_of_fmap.
      apply Hq. apply list_elem_of_fmap. exists q'. tauto.
    + rewrite filter_cons_False by exact Heq. apply IH, Hrest.
  - intros id (q & -> & Hin%list_elem_of_filter)%list_elem_of_fmap Hp.
    cbn in Hp. apply list_elem_of_singleton in Hp. tauto.
  - apply NoDup_singleton.
Qed.

Lemma index_consistent_step `{Externals} (a : action) (w : World) :
  index_consistent w -> index_consistent (exec a w).
Proof.
  intros [Hnodup Hpoints]. destruct a as [env file|env q|env|env msg]; cbn [exec].
  - unfold index_consistent. rewrite upload_points. split; [exact Hnodup|].
    intros p Hp. destruct (Hpoints p Hp) as (Hid & Hlen & Hvec & Hblob).
    split_and!; [exact Hid | exact Hlen | exact Hvec |].
    destruct (upload_stores env file w) as ([->| ->] & _); cbv zeta;
      [|apply is_Some_insert_mono]; exact Hblob.
  - destruct (search_frame env q w) as (Hb & _ & Hp). unfold index_consistent.
    rewrite Hb, Hp. split; assumption.
  - destruct (status_frame env w) as (Hb & _ & _ & Hp). unfold index_consistent.
    rewrite Hb, Hp. split; assumption.
  - destruct (delivery_stores env msg w) as (Hb & Hp & _). cbv zeta in *.
    unfold index_consistent. rewrite Hb, Hp.
    destruct (delivered_point env msg (blobs w)) as [p|] eqn:Hdel; [|split; assumption].
    apply delivered_point_inv in Hdel as (content & Hblob & ->).
    split; [apply NoDup_upsert, Hnodup|].
    intros q [->|Hq]%elem_of_upsert; [|apply Hpoints, Hq].
    cbn. split_and!; [reflexivity | apply substring_length_le | reflexivity | eauto].
Qed.

(** X16: in every world the system can reach, the index holds at most one
    point per id, and every point names its own id in its payload, carries
    at most 500 characters of text together with the embedding of exactly
    that text, and has its blob in the Blob Store. *)
Theorem X16_index_points_are_unique `{Externals} (w : World) :
  reachable w -> index_consistent w.
Proof.
  apply (reachable_invariant index_consistent).
  - split; [constructor|]. intros p Hp. cbn [empty_world points] in Hp. inversion Hp.
  - apply index_consistent_step.
Qed.

Lemma X16_index_points_are_unique_witness :
  NoDup (pt_id <$> points
           (@exec_all sample_externals
              [Upload (fine_upload 10 "d1") sample_file;
               Deliver fine_delivery sample_event;
               Deliver rejected_delivery sample_event;
               Deliver fine_delivery sample_event] empty_world)).
Proof.
  refine (proj1 (@X16_index_points_are_unique sample_externals _ _)).
  eexists. reflexivity.
Defined.

(** X17: every event in the queue of a reachable world has its blob and
    its row, the row carrying the filename of the event as the column
    stores it.  When the first 200 characters of the decoded blob hold no
    NUL, a delivery that meets no fault returns normally, writes both of
    its log lines, leaves the point of the document in the index and the
    row Processed, with those 200 characters as preview and filename and
    upload date as they were. *)
Theorem X17_queued_event_is_processed
    `{Externals} (w : World) (subject : string) (msg : Event) :
  reachable w ->
  (subject, msg) ∈ queue w ->
  let out := Processor.process_document fine_delivery msg w in
  exists content r,
    blobs w !! Processor.object_key (ev_id msg) = Some content
    /\ docs w !! ev_id msg = Some r
    /\ filename r = slice_to 255 (ev_filename msg)
    /\ (has_nul (slice_to 200 (decode_ignore content)) = false ->
        fst out = Ok tt
        /\ stdout_lines (issued (Processor.process_document fine_delivery msg) w)
           = ["Processing document " +:+ ev_id msg; "Processed document " +:+ ev_id msg]
        /\ docs (snd out) !! ev_id msg
           = Some {| filename := filename r; upload_date := upload_date r;
                     processed := true;
                     text_preview := Some (slice_to 200 (decode_ignore content)) |}
        /\ processing_state_of (snd out) (ev_id msg) = Some Processed
        /\ entries (ev_id msg) (points (snd out)) = [point_of msg content]).
Proof.
  intros Hreach Hin out. subst out.
  destruct (proj2 (blobs_cover_reachable w Hreach) subject msg Hin) as [content Hblob].
  destruct (proj2 (queue_consistent_reachable w Hreach) subject msg Hin)
    as (_ & _ & r & Hr & Hname).
  exists content, r. split_and!; [exact Hblob | exact Hr | exact Hname |].
  intros _. split_and!.
  all: unfold processing_state_of, Processor.process_document; autounfold with req_ops; simp.
  all: rewrite Hblob; simp; change (is_success 200) with true; simp; trace_tail.
  all: rewrite ?lookup_alter_eq, ?Hr; try reflexivity.
  - cbn. unfold mark_processed, slice_to. rewrite substring_substring by lia. reflexivity.
  - apply (entries_upsert (point_of msg content)).
Qed.

Lemma X17_queued_event_is_processed_witness :
  fst (@Processor.process_document sample_externals fine_delivery sample_event uploaded_world)
  = Ok tt
  /\ processing_state_of
       (snd (@Processor.process_document sample_externals fine_delivery sample_event
               uploaded_world)) "d1"
     = Some Processed.
Proof.
  destruct (@X17_queued_event_is_processed sample_externals uploaded_world
              "document.process" sample_event)
    as (content & r & Hblob & _ & _ & Hrun).
  - exists [Upload (fine_upload 10 "d1") sample_file]. reflexivity.
  - vm_compute. left.
  - assert (Hcontent : content = file_body sample_file).
    { assert (Hstored : blobs uploaded_world !! Processor.object_key (ev_id sample_event)
                        = Some (file_body sample_file)) by reflexivity.
      rewrite Hstored in Hblob. injection Hblob as <-. reflexivity. }
    subst content.
    destruct (Hrun eq_refl) as (Hok & _ & _ & Hstate & _).
    split; [exact Hok | exact Hstate].
Defined.

Lemma listed_rows (w : World) (views : list DocumentView) (v : DocumentView) :
  fst (Api.list_documents None w) = Ok views ->
  v ∈ views ->
  exists r, docs w !! dv_id v = Some r /\ v = view_of (dv_id v, r).
Proof.
  intros [= <-] (e & -> & He)%list_elem_of_fmap.
  destruct (pg_recent_spec 10 (docs w)) as (_ & _ & _ & Hsound & _).
  exists (snd e). split; [apply Hsound, He | destruct e; reflexivity].
Qed.

(** X18: once a queued event of a reachable world, whose preview holds no
    NUL, has been delivered without fault, [list_documents] shows its
    document, wherever it is listed, as processed and under the filename
    of the event as the column stores it; every other entry of the listing
    shows a row that the delivery has not changed. *)
Theorem X18_listing_shows_processed
    `{Externals} (w : World) (subject : string) (msg : Event)
    (views : list DocumentView) (v : DocumentView) :
  reachable w ->
  (subject, msg) ∈ queue w ->
  (forall content, blobs w !! Processor.object_key (ev_id msg) = Some content ->
                   has_nul (slice_to 200 (decode_ignore content)) = false) ->
  fst (Api.list_documents None (snd (Processor.process_document fine_delivery msg w)))
  = Ok views ->
  v ∈ views ->
  (dv_id v = ev_id msg ->
     dv_processed v = true /\ dv_filename v = slice_to 255 (ev_filename msg))
  /\ (dv_id v <> ev_id msg ->
      exists r, docs w !! dv_id v = Some r /\ v = view_of (dv_id v, r)).
Proof.
  intros Hreach Hin _ Hlist Hv.
  destruct (listed_rows _ views v Hlist Hv) as (r' & Hr' & Hview).
  destruct (proj2 (blobs_cover_reachable w Hreach) subject msg Hin) as [content Hblob].
  destruct (proj2 (queue_consistent_reachable w Hreach) subject msg Hin)
    as (_ & _ & r & Hr & Hname).
  destruct (delivery_stores fine_delivery msg w) as (_ & _ & Hdocs). cbv zeta in Hdocs.
  assert (Hprev : delivered_preview fine_delivery msg (blobs w) = Some (preview_of content))
    by (unfold delivered_preview; cbn; rewrite Hblob; reflexivity).
  rewrite Hprev in Hdocs. rewrite Hdocs in Hr'. split.
  - intros Hid. rewrite Hid, lookup_alter_eq, Hr in Hr'. injection Hr' as <-.
    rewrite Hview. cbn. split; [reflexivity | exact Hname].
  - intros Hne. rewrite lookup_alter_ne in Hr' by congruence. eauto.
Qed.

Lemma X18_listing_shows_processed_witness :
  fst (Api.list_documents None
         (snd (@Processor.process_document sample_externals fine_delivery sample_event
                 uploaded_world)))
  = Ok [{| dv_id := "d1"; dv_filename := "a.pdf"; dv_upload_date := 10;
           dv_processed := true |}]
  /\ dv_filename {| dv_id := "d1"; dv_filename := "a.pdf"; dv_upload_date := 10;
                    dv_processed := true |} = slice_to 255 (ev_filename sample_event).
Proof.
  assert (Hlist : fst (Api.list_documents None
                         (snd (@Processor.process_document sample_externals fine_delivery
                                 sample_event uploaded_world)))
                  = Ok [{| dv_id := "d1"; dv_filename := "a.pdf"; dv_upload_date := 10;
                           dv_processed := true |}])
    by (vm_compute; reflexivity).
  split; [exact Hlist|].
  refine (proj2 (proj1 (@X18_listing_shows_processed sample_externals uploaded_world
                          "document.process" sample_event _
                          {| dv_id := "d1"; dv_filename := "a.pdf"; dv_upload_date := 10;
                             dv_processed := true |} _ _ _ Hlist _) eq_refl)).
  - exists [Upload (fine_upload 10 "d1") sample_file]. reflexivity.
  - vm_compute. left.
  - intros content Hblob.
    assert (Hstored : blobs uploaded_world !! Processor.object_key (ev_id sample_event)
                      = Some (file_body sample_file)) by reflexivity.
    rewrite Hstored in Hblob. injection Hblob as <-. reflexivity.
  - left.
Defined.
